(** * Safe Chat Filter backend (backend/app.py): a shallow embedding

    The development follows the source file top to bottom:

    - [PyStr]: the operations of Python's [str] that the program calls
      ([lower], [strip], [replace], [title]);
    - [Re]: the fragment of Python's [re] that the pattern table is written
      in (literals, [\b], groups, alternation) with [re.search] and the
      [IGNORECASE] flag;
    - [HEURISTIC_PATTERNS] and [check_with_heuristic];
    - decoded JSON values, the outbound call and [check_with_openai];
    - the handlers [check_text], [health_check] and [root].

    A text is a list of Unicode code points.  What Python does with a code
    point under 128 is written out; what it does with any other code point
    is read from the Unicode database, which is a parameter of the
    development ([Unicode]): every statement holds for every database.
    The whitespace of [str.strip] is a short list and is written out in
    full.

    A handler is a computation in [M]: it reads the [world] (the process
    environment and the upstream service), leaves a trace of the calls it
    makes, and returns or raises.  The three library calls of the client
    ([client.post], [raise_for_status], [json]) are answered by the world;
    opening and closing the [httpx.AsyncClient] is taken not to raise. *)

From Stdlib Require Import String Ascii List Bool NArith ZArith Lia Floats.
Import ListNotations.

Local Open Scope string_scope.
Local Open Scope list_scope.

(** ** Texts *)

(** A character is its code point; a [str] is the list of its characters. *)
Definition char : Type := N.
Definition str : Type := list char.

Definition ord (a : ascii) : char := N_of_ascii a.

(** A literal of the program, all of whose characters are ASCII. *)
Definition of_string (x : string) : str := map ord (list_ascii_of_string x).
Coercion of_string : string >-> str.

(** A literal inside a list or a pair is read at the type expected of the
    list or the pair. *)
#[local] Arguments cons {A} & _ _.
#[local] Arguments pair {A B} & _ _.

Fixpoint str_eqb (a b : str) : bool :=
  match a, b with
  | [], [] => true
  | x :: a', y :: b' => N.eqb x y && str_eqb a' b'
  | _, _ => false
  end.

(** What the Unicode database says of the code points from 128 on.
    [uni_lower before c after] is what [str.lower] puts for [c] where it
    stands between [before] and [after] (the lower case of a capital sigma
    depends on its neighbours); [uni_title c] is what [str.title] puts for
    [c] at the start of a word; [uni_cased c] tells whether a character
    that follows [c] is inside a word for [str.title]; [uni_word c] tells
    whether [\w] matches [c]; [uni_ignorecase p c] tells whether the
    literal [p] of a pattern matches [c] under [re.IGNORECASE], one of the
    two at least being from 128 on. *)
Class Unicode : Type := {
  uni_lower : str -> char -> str -> str;
  uni_title : char -> str;
  uni_cased : char -> bool;
  uni_word : char -> bool;
  uni_ignorecase : char -> char -> bool
}.

(** ** Python strings *)

Module PyStr.

Definition is_ascii (c : char) : bool := N.ltb c 128.

Definition between (lo hi : N) (c : char) : bool :=
  N.leb lo c && N.leb c hi.

Definition ascii_isupper (c : char) : bool := between 65 90 c.
Definition ascii_islower (c : char) : bool := between 97 122 c.
Definition ascii_isdigit (c : char) : bool := between 48 57 c.
Definition ascii_isalpha (c : char) : bool :=
  ascii_isupper c || ascii_islower c.
Definition ascii_isalnum (c : char) : bool :=
  ascii_isalpha c || ascii_isdigit c.

Definition ascii_lower (c : char) : char :=
  if ascii_isupper c then (c + 32)%N else c.

Definition ascii_upper (c : char) : char :=
  if ascii_islower c then (c - 32)%N else c.

(** [str.isspace] on one character, which is what [str.strip] takes off:
    TAB, LF, VT, FF, CR, the separators FS, GS, RS, US, the space,
    U+0085, U+00A0, U+1680, U+2000 to U+200A, U+2028, U+2029, U+202F,
    U+205F and U+3000. *)
Definition isspace (c : char) : bool :=
  between 9 13 c || between 28 32 c
  || N.eqb c 133 || N.eqb c 160 || N.eqb c 5760
  || between 8192 8202 c
  || N.eqb c 8232 || N.eqb c 8233 || N.eqb c 8239 || N.eqb c 8287
  || N.eqb c 12288.

(** What [s.lower()] puts for the character [c] of [s] that stands between
    [before] and [after]. *)
Definition lower_at {U : Unicode} (before : str) (c : char) (after : str)
  : str :=
  if is_ascii c then [ascii_lower c] else uni_lower before c after.

(** [s.lower()] *)
Fixpoint lower_from {U : Unicode} (before s : str) : str :=
  match s with
  | [] => []
  | c :: after =>
      lower_at before c after ++ lower_from (before ++ [c]) after
  end.

Definition lower {U : Unicode} (s : str) : str := lower_from [] s.

(** [s.lstrip()], [s.rstrip()] and [s.strip()] with no argument. *)
Fixpoint lstrip (s : str) : str :=
  match s with
  | [] => []
  | c :: s' => if isspace c then lstrip s' else s
  end.

Fixpoint rstrip (s : str) : str :=
  match s with
  | [] => []
  | c :: s' =>
      match rstrip s' with
      | [] => if isspace c then [] else [c]
      | r => c :: r
      end
  end.

Definition strip (s : str) : str := rstrip (lstrip s).

(** [s.replace(old, new)] for one-character [old] and [new], the only form
    the program uses. *)
Fixpoint replace (old new : char) (s : str) : str :=
  match s with
  | [] => []
  | c :: s' => (if N.eqb c old then new else c) :: replace old new s'
  end.

(** A character after which [str.title] is inside a word. *)
Definition cased {U : Unicode} (c : char) : bool :=
  if is_ascii c then ascii_isalpha c else uni_cased c.

(** [s.title()]: a character that follows a cased character is lower-cased,
    any other character is title-cased; [previous_is_cased] is the flag of
    the library's loop. *)
Fixpoint title_from {U : Unicode} (previous_is_cased : bool)
    (before s : str) : str :=
  match s with
  | [] => []
  | c :: after =>
      (if previous_is_cased
       then lower_at before c after
       else if is_ascii c then [ascii_upper c] else uni_title c)
      ++ title_from (cased c) (before ++ [c]) after
  end.

Definition title {U : Unicode} (s : str) : str := title_from false [] s.

(** Truth value of a string: [bool(s)]. *)
Definition truthy (s : str) : bool :=
  match s with [] => false | _ :: _ => true end.

End PyStr.

(** ** Python regular expressions *)

Module Re.

(** The syntax the pattern table uses. *)
Inductive regex : Type :=
| Lit (c : char)
| WordB
| Group (r : regex)
| Alt (r1 r2 : regex)
| Cat (r1 r2 : regex)
| Eps.

(** The pattern text a regex was compiled from. *)
Fixpoint source (r : regex) : str :=
  match r with
  | Lit c => [c]
  | WordB => "\b"
  | Group r => ("(" : str) ++ source r ++ (")" : str)
  | Alt r1 r2 => source r1 ++ ("|" : str) ++ source r2
  | Cat r1 r2 => source r1 ++ source r2
  | Eps => []
  end.

(** [\w] *)
Definition is_word {U : Unicode} (c : char) : bool :=
  if PyStr.is_ascii c
  then PyStr.ascii_isalnum c || N.eqb c 95
  else uni_word c.

Definition word_before {U : Unicode} (prev : option char) : bool :=
  match prev with None => false | Some c => is_word c end.

Definition word_after {U : Unicode} (rest : str) : bool :=
  match rest with [] => false | c :: _ => is_word c end.

(** [\b] holds between a word character and a non-word character, the two
    ends of the text counting as non-word. *)
Definition at_boundary {U : Unicode} (prev : option char) (rest : str)
  : bool :=
  xorb (word_before prev) (word_after rest).

(** A literal against a character of the text, under the flags. *)
Definition char_match {U : Unicode} (ignorecase : bool) (p c : char)
  : bool :=
  if ignorecase
  then if PyStr.is_ascii p && PyStr.is_ascii c
       then N.eqb (PyStr.ascii_lower p) (PyStr.ascii_lower c)
       else uni_ignorecase p c
  else N.eqb p c.

(** The backtracking matcher: [r] is tried at the position that has
    [prev] on its left and [rest] on its right; [k] is what remains of the
    pattern, tried wherever [r] stops. *)
Fixpoint match_here {U : Unicode} (ignorecase : bool) (r : regex)
    (prev : option char) (rest : str)
    (k : option char -> str -> bool) : bool :=
  match r with
  | Lit p =>
      match rest with
      | [] => false
      | c :: rest' =>
          if char_match ignorecase p c then k (Some c) rest' else false
      end
  | WordB => if at_boundary prev rest then k prev rest else false
  | Group r => match_here ignorecase r prev rest k
  | Alt r1 r2 =>
      match_here ignorecase r1 prev rest k
      || match_here ignorecase r2 prev rest k
  | Cat r1 r2 =>
      match_here ignorecase r1 prev rest
        (fun prev' rest' => match_here ignorecase r2 prev' rest' k)
  | Eps => k prev rest
  end.

Definition match_at {U : Unicode} (ignorecase : bool) (r : regex)
    (prev : option char) (rest : str) : bool :=
  match_here ignorecase r prev rest (fun _ _ => true).

(** Every start position, left to right. *)
Fixpoint search_from {U : Unicode} (ignorecase : bool) (r : regex)
    (prev : option char) (rest : str) : bool :=
  match_at ignorecase r prev rest
  || match rest with
     | [] => false
     | c :: rest' => search_from ignorecase r (Some c) rest'
     end.

(** The truth value of [re.search(pattern, text, flags)]. *)
Definition search {U : Unicode} (r : regex) (text : str)
    (ignorecase : bool) : bool :=
  search_from ignorecase r None text.

Definition IGNORECASE : bool := true.

(** Builders for the one shape of the table: [\b(w1|w2|...|wn)\b]. *)
Fixpoint word (w : str) : regex :=
  match w with
  | [] => Eps
  | [c] => Lit c
  | c :: w' => Cat (Lit c) (word w')
  end.

Fixpoint alternatives (ws : list str) : regex :=
  match ws with
  | [] => Eps
  | [w] => word w
  | w :: ws' => Alt (word w) (alternatives ws')
  end.

Definition words (ws : list str) : regex :=
  Cat WordB (Cat (Group (alternatives ws)) WordB).

End Re.

(** ** Request/Response models *)

Record CheckRequest : Type := { text : str }.

Record CheckResponse : Type := {
  safe : bool;
  reasons : list str;
  mode : string
}.

(** ** Heuristic filter patterns *)

Definition HEURISTIC_PATTERNS : list (str * list Re.regex) :=
  [ ("violence",
      [ Re.words ["kill"; "murder"; "assault"; "attack"; "fight";
                  "violence"; "harm"; "hurt"];
        Re.words ["weapon"; "gun"; "knife"; "bomb"; "explosive"];
        Re.words ["threat"; "threaten"; "intimidate"] ]);
    ("harassment",
      [ Re.words ["stupid"; "idiot"; "moron"; "dumb"; "ugly"; "fat";
                  "gross"];
        Re.words ["hate"; "despise"; "loathe"];
        Re.words ["harass"; "bully"; "intimidate"] ]);
    ("inappropriate",
      [ Re.words ["sex"; "sexual"; "nude"; "naked"; "porn"; "adult"];
        Re.words ["drug"; "alcohol"; "drunk"; "high"; "stoned"];
        Re.words ["scam"; "fraud"; "cheat"; "steal"; "rob"] ]);
    ("spam",
      [ Re.words ["buy"; "sell"; "promo"; "discount"; "offer"; "deal"];
        Re.words ["click"; "link"; "website"; "url"];
        Re.words ["follow"; "subscribe"; "like"; "share"] ]) ].

(** The f-string both classifiers build:
    [f"Detected: {category.replace('_', ' ').title()}"]. *)
Definition detected {U : Unicode} (category : str) : str :=
  ("Detected: " : str)
  ++ PyStr.title (PyStr.replace (ord "_") (ord " ") category).

(** ** check_with_heuristic *)

(** The inner loop, [for pattern in patterns]: the first pattern found in
    the text appends the reason and leaves the loop. *)
Fixpoint for_pattern {U : Unicode} (category : str)
    (patterns : list Re.regex)
    (text_lower : str) (reasons : list str) : list str :=
  match patterns with
  | [] => reasons
  | pattern :: patterns' =>
      if Re.search pattern text_lower Re.IGNORECASE
      then reasons ++ [detected category]
      else for_pattern category patterns' text_lower reasons
  end.

(** The outer loop, [for category, patterns in HEURISTIC_PATTERNS.items()]. *)
Fixpoint for_category {U : Unicode} (items : list (str * list Re.regex))
    (text_lower : str) (reasons : list str) : list str :=
  match items with
  | [] => reasons
  | (category, patterns) :: items' =>
      for_category items' text_lower
        (for_pattern category patterns text_lower reasons)
  end.

Definition check_with_heuristic {U : Unicode} (text : str) : CheckResponse :=
  let text_lower := PyStr.lower text in
  let reasons := for_category HEURISTIC_PATTERNS text_lower [] in
  {| safe := Nat.eqb (List.length reasons) 0;
     reasons := reasons;
     mode := "heuristic" |}.

(** ** Decoded JSON *)

(** What [response.json()] can return.  The keys of a decoded object are
    strings and keep their order of insertion, which is the order
    [dict.items()] yields them in. *)
#[warnings="-register-all"]
Inductive pyval : Type :=
| PNone
| PBool (b : bool)
| PInt (n : Z)
| PFloat (x : float)
| PStr (s : str)
| PList (xs : list pyval)
| PDict (items : list (str * pyval)).

(** The exceptions the program can meet.  All of them derive from
    [Exception]; [LibraryError] stands for those raised inside httpx
    (connection errors, timeouts, status errors, undecodable bodies). *)
Inductive exn : Type :=
| KeyError (key : str)
| IndexError
| TypeError
| AttributeError
| LibraryError (name : string)
| HTTPException (status_code : Z) (detail : string).

Definition isinstance_Exception (e : exn) : bool := true.

Definition isinstance_HTTPException (e : exn) : bool :=
  match e with HTTPException _ _ => true | _ => false end.

Inductive outcome (A : Type) : Type :=
| Return (a : A)
| Raise (e : exn).
Arguments Return {A} a.
Arguments Raise {A} e.

Module Py.

(** [bool(v)], the test behind [if v] and [not v]. *)
Definition truthy (v : pyval) : bool :=
  match v with
  | PNone => false
  | PBool b => b
  | PInt n => negb (Z.eqb n 0)
  | PFloat x => negb (PrimFloat.eqb x 0%float)
  | PStr s => PyStr.truthy s
  | PList xs => match xs with [] => false | _ :: _ => true end
  | PDict items => match items with [] => false | _ :: _ => true end
  end.

Fixpoint lookup (key : str) (items : list (str * pyval))
  : option pyval :=
  match items with
  | [] => None
  | (k, v) :: items' => if str_eqb k key then Some v else lookup key items'
  end.

(** [v[key]] for a string [key]. *)
Definition getitem (v : pyval) (key : str) : outcome pyval :=
  match v with
  | PDict items =>
      match lookup key items with
      | Some x => Return x
      | None => Raise (KeyError key)
      end
  | _ => Raise TypeError
  end.

(** [v[0]] *)
Definition getitem0 (v : pyval) : outcome pyval :=
  match v with
  | PList (x :: _) => Return x
  | PList [] => Raise IndexError
  | PStr (c :: _) => Return (PStr [c])
  | PStr [] => Raise IndexError
  | PDict _ => Raise (KeyError "0")
  | _ => Raise TypeError
  end.

(** [v.items()] *)
Definition items (v : pyval) : outcome (list (str * pyval)) :=
  match v with
  | PDict its => Return its
  | _ => Raise AttributeError
  end.

(** [bool(os.getenv(name))] and the [{...}] of an f-string on it. *)
Definition truthy_env (v : option string) : bool :=
  match v with
  | None => false
  | Some EmptyString => false
  | Some (String _ _) => true
  end.

Definition format_env (v : option string) : string :=
  match v with None => "None" | Some s => s end.

End Py.

(** ** The world outside the program *)

Record Request : Type := {
  url : string;
  headers : list (string * string);
  json : pyval;
  timeout : float
}.

(** What the answer to a request does when the program uses it:
    [raise_for_status()] raises or not, [json()] raises or decodes. *)
Record Response : Type := {
  raise_for_status : option exn;
  response_json : outcome pyval
}.

Record world : Type := {
  environ : string -> option string;
  post : Request -> outcome Response
}.

(** What the program does that can be seen from outside a handler, in the
    order it does it. *)
Inductive event : Type :=
| Call_check_with_openai (text : str)
| Call_check_with_heuristic (text : str)
| Post (request : Request)
| Stdout (message : string) (e : exn).

(** ** Effects: environment, trace, exceptions *)

Definition M (A : Type) : Type := world -> list event * outcome A.

Definition ret {A : Type} (a : A) : M A := fun _ => ([], Return a).

Definition raise {A : Type} (e : exn) : M A := fun _ => ([], Raise e).

Definition bind {A B : Type} (m : M A) (k : A -> M B) : M B :=
  fun w =>
    match m w with
    | (t, Return a) => let (t', r) := k a w in (t ++ t', r)
    | (t, Raise e) => (t, Raise e)
    end.

Declare Scope py_scope.
Delimit Scope py_scope with py.
Notation "x <- m ;; k" := (bind m (fun x => k))
  (at level 61, m at next level, right associativity) : py_scope.
Notation "m ;;; k" := (bind m (fun _ => k))
  (at level 61, right associativity) : py_scope.
Local Open Scope py_scope.

Definition lift {A : Type} (r : outcome A) : M A := fun _ => ([], r).

Definition emit (e : event) : M unit := fun _ => ([e], Return tt).

(** The call [f x] of a function of the program, which the trace shows as
    [label x] followed by what [f x] does. *)
Definition call {A : Type} (label : str -> event) (f : str -> M A)
    (x : str) : M A :=
  fun w => let (t, r) := f x w in (label x :: t, r).

(** [try: body / except <class> as e: handler e] *)
Definition try_except {A : Type} (body : M A)
    (class : exn -> bool) (handler : exn -> M A) : M A :=
  fun w =>
    match body w with
    | (t, Return a) => (t, Return a)
    | (t, Raise e) =>
        if class e
        then let (t', r) := handler e w in (t ++ t', r)
        else (t, Raise e)
    end.

Definition os_getenv (name : string) : M (option string) :=
  fun w => ([], Return (environ w name)).

Definition client_post (request : Request) : M Response :=
  fun w => ([Post request], post w request).

Definition trace {A : Type} (m : M A) (w : world) : list event := fst (m w).
Definition result {A : Type} (m : M A) (w : world) : outcome A := snd (m w).

(** ** check_with_openai *)

(** [for category, is_flagged in categories.items()] *)
Fixpoint for_item {U : Unicode} (items : list (str * pyval))
    (reasons : list str) : list str :=
  match items with
  | [] => reasons
  | (category, is_flagged) :: items' =>
      for_item items'
        (if Py.truthy is_flagged
         then reasons ++ [detected category]
         else reasons)
  end.

Definition check_with_openai {U : Unicode} (text : str) : M CheckResponse :=
  try_except
    (key <- os_getenv "OPENAI_API_KEY" ;;
     response <- client_post
       {| url := "https://api.openai.com/v1/moderations";
          headers :=
            [ ("Authorization", ("Bearer " ++ Py.format_env key)%string);
              ("Content-Type", "application/json") ];
          json := PDict [("input", PStr text)];
          timeout := 10%float |} ;;
     match raise_for_status response with
     | Some e => raise e
     | None => ret tt
     end ;;;
     data <- lift (response_json response) ;;
     results <- lift (Py.getitem data "results") ;;
     result <- lift (Py.getitem0 results) ;;
     flagged <- lift (Py.getitem result "flagged") ;;
     categories <- lift (Py.getitem result "categories") ;;
     reasons <-
       (if Py.truthy flagged
        then items <- lift (Py.items categories) ;; ret (for_item items [])
        else ret []) ;;
     ret {| safe := negb (Py.truthy flagged);
            reasons := reasons;
            mode := "openai" |})
    isinstance_Exception
    (fun e =>
       emit (Stdout "OpenAI API error: " e) ;;;
       raise (HTTPException 500 "OpenAI moderation service unavailable")).

(** ** The handlers *)

Definition check_text {U : Unicode} (request : CheckRequest)
  : M CheckResponse :=
  if negb (PyStr.truthy (PyStr.strip (text request)))
  then ret {| safe := true; reasons := []; mode := "none" |}
  else
    key <- os_getenv "OPENAI_API_KEY" ;;
    answered <-
      (if Py.truthy_env key
       then
         try_except
           (r <- call Call_check_with_openai check_with_openai
                   (text request) ;;
            ret (Some r))
           isinstance_HTTPException
           (fun _ => ret None)
       else ret None) ;;
    match answered with
    | Some r => ret r
    | None =>
        call Call_check_with_heuristic
          (fun x => ret (check_with_heuristic x)) (text request)
    end.

Record HealthResponse : Type := {
  status : string;
  openai_available : bool;
  heuristic_available : bool
}.

Definition health_check : M HealthResponse :=
  key <- os_getenv "OPENAI_API_KEY" ;;
  let openai_available := Py.truthy_env key in
  ret {| status := "healthy";
         openai_available := openai_available;
         heuristic_available := true |}.

Record RootResponse : Type := {
  message : string;
  version : string
}.

Definition root : M RootResponse :=
  ret {| message := "Safe Chat Filter API is running"; version := "1.0.0" |}.

(** * The vocabulary of the properties *)

(** ** Texts and occurrences *)

(** The text is empty or consists only of whitespace. *)
Fixpoint whitespace_only (s : str) : bool :=
  match s with
  | [] => true
  | c :: s' => PyStr.isspace c && whitespace_only s'
  end.

(** Every character of the text satisfies [P]. *)
Fixpoint every (P : char -> bool) (s : str) : bool :=
  match s with
  | [] => true
  | c :: s' => P c && every P s'
  end.

(** The text is ASCII. *)
Definition ascii_text (s : str) : bool := every PyStr.is_ascii s.

(** The character on the left of the position reached by reading [s] from
    a position that has [prev] on its left. *)
Fixpoint left_of (prev : option char) (s : str) : option char :=
  match s with
  | [] => prev
  | c :: s' => left_of (Some c) s'
  end.

(** The side of a position is a word character; the ends of the text are
    not. *)
Definition word_char {U : Unicode} (side : option char) : bool :=
  match side with None => false | Some c => Re.is_word c end.

(** The same where the text is ASCII: a letter, a digit or the
    underscore. *)
Definition ascii_word (c : char) : bool :=
  PyStr.ascii_isalnum c || N.eqb c 95.

Definition ascii_word_char (side : option char) : bool :=
  match side with None => false | Some c => ascii_word c end.

(** The side of a position in an ASCII text. *)
Definition ascii_side (side : option char) : bool :=
  match side with None => true | Some c => PyStr.is_ascii c end.

(** A stretch [m] of [text] is matched by the literals of [w] one by one
    and has a word character on one side only of each of its two ends. *)
Definition matches_as_word {U : Unicode} (ignorecase : bool)
    (w text : str) : Prop :=
  exists before m after : str,
    text = before ++ m ++ after
    /\ Forall2 (fun p c => Re.char_match ignorecase p c = true) w m
    /\ xorb (word_char (left_of None before))
            (word_char (hd_error (m ++ after))) = true
    /\ xorb (word_char (left_of None (before ++ m)))
            (word_char (hd_error after)) = true.

(** In an ASCII text, [w] stands between two word boundaries, letter case
    apart. *)
Definition occurs_as_word (w text : str) : Prop :=
  exists before m after : str,
    text = before ++ m ++ after
    /\ map PyStr.ascii_lower m = map PyStr.ascii_lower w
    /\ xorb (ascii_word_char (left_of None before))
            (ascii_word_char (hd_error (m ++ after))) = true
    /\ xorb (ascii_word_char (left_of None (before ++ m)))
            (ascii_word_char (hd_error after)) = true.

(** One of [patterns] is found in the text. *)
Definition found {U : Unicode} (text_lower : str)
    (patterns : list Re.regex) : bool :=
  existsb (fun pattern => Re.search pattern text_lower Re.IGNORECASE) patterns.

(** The code points under 128. *)
Definition codes : list char := map N.of_nat (seq 0 128).

(** A database that knows no letter beyond ASCII, to run examples in. *)
Definition ascii_only : Unicode :=
  {| uni_lower := fun _ c _ => [c];
     uni_title := fun c => [c];
     uni_cased := fun _ => false;
     uni_word := fun _ => false;
     uni_ignorecase := N.eqb |}.

(** What the database says of the whitespace from 128 on: it has no other
    case, it is no word character, and no ASCII literal matches it. *)
Definition whitespace_is_inert {U : Unicode} : Prop :=
  forall c,
    PyStr.isspace c = true -> PyStr.is_ascii c = false ->
    (forall before after, uni_lower before c after = [c])
    /\ uni_word c = false
    /\ (forall p, PyStr.is_ascii p = true -> uni_ignorecase p c = false).

(** ** Runs of the moderation client *)

(** The request [check_with_openai] sends for [text]. *)
Definition moderation_request (w : world) (text : str) : Request :=
  {| url := "https://api.openai.com/v1/moderations";
     headers :=
       [ ("Authorization",
          ("Bearer " ++ Py.format_env (environ w "OPENAI_API_KEY"))%string);
         ("Content-Type", "application/json") ];
     json := PDict [("input", PStr text)];
     timeout := 10%float |}.

(** The one exception [check_with_openai] lets out. *)
Definition unavailable : exn :=
  HTTPException 500 "OpenAI moderation service unavailable".

(** The trace and result of a call that met [e]. *)
Definition failed (w : world) (text : str) (e : exn)
  : list event * outcome CheckResponse :=
  ([Post (moderation_request w text); Stdout "OpenAI API error: " e],
   Raise unavailable).

(** The upstream answer to [text] decodes, through the subscripts the
    program takes, to [flagged] and [categories]. *)
Definition upstream_says (w : world) (text : str)
    (flagged categories : pyval) : Prop :=
  exists response data results result,
    post w (moderation_request w text) = Return response
    /\ raise_for_status response = None
    /\ response_json response = Return data
    /\ Py.getitem data "results" = Return results
    /\ Py.getitem0 results = Return result
    /\ Py.getitem result "flagged" = Return flagged
    /\ Py.getitem result "categories" = Return categories.

Ltac run_M :=
  unfold check_with_openai, try_except, bind, os_getenv, client_post, lift,
    ret, raise, emit, isinstance_Exception, failed, unavailable;
  cbn [fst snd app].

(** What the check endpoint answers to a blank text. *)
Definition no_classification : CheckResponse :=
  {| safe := true; reasons := []; mode := "none" |}.

(** ** Worlds to run the program in *)

(** A process environment that holds [key], or nothing, under
    OPENAI_API_KEY. *)
Definition environment (key : option string) : string -> option string :=
  fun name => if String.eqb name "OPENAI_API_KEY" then key else None.

(** The upstream answers every request with a success status and [data]. *)
Definition answering (key : option string) (data : pyval) : world :=
  {| environ := environment key;
     post := fun _ => Return {| raise_for_status := None;
                                response_json := Return data |} |}.

(** The upstream never answers: [client.post] raises [e]. *)
Definition unreachable (key : option string) (e : exn) : world :=
  {| environ := environment key; post := fun _ => Raise e |}.

(** A moderation answer of the upstream service. *)
Definition moderation (flagged categories : pyval) : pyval :=
  PDict [ ("id", PStr "modr-1");
          ("model", PStr "text-moderation");
          ("results", PList [ PDict [ ("flagged", flagged);
                                      ("categories", categories) ] ]) ].

(** A well-formed answer: a boolean [flagged] and a boolean per category. *)
Definition booleans (categories : list (str * bool)) : pyval :=
  PDict (map (fun cb => (fst cb, PBool (snd cb))) categories).

(** The reasons as the specification words them: one entry per category
    marked true, whatever [flagged] is. *)
Definition one_reason_per_true_category {U : Unicode}
    (categories : list (str * bool)) : list str :=
  map (fun cb => detected (fst cb)) (filter snd categories).

(** ** Patterns, texts and traces *)

(** Every literal of the pattern satisfies [P]. *)
Fixpoint literals (P : char -> bool) (r : Re.regex) : bool :=
  match r with
  | Re.Lit c => P c
  | Re.WordB => true
  | Re.Group r => literals P r
  | Re.Alt r1 r2 => literals P r1 && literals P r2
  | Re.Cat r1 r2 => literals P r1 && literals P r2
  | Re.Eps => true
  end.

(** The pattern has an empty piece: an empty group, alternative or word. *)
Fixpoint has_eps (r : Re.regex) : bool :=
  match r with
  | Re.Lit _ => false
  | Re.WordB => false
  | Re.Group r => has_eps r
  | Re.Alt r1 r2 => has_eps r1 || has_eps r2
  | Re.Cat r1 r2 => has_eps r1 || has_eps r2
  | Re.Eps => true
  end.

(** The character is left as it is by the lower-casing of ASCII. *)
Definition is_lowered (c : char) : bool := negb (PyStr.ascii_isupper c).

(** An ASCII letter in lower case, a digit or the underscore. *)
Definition lowered_word (c : char) : bool :=
  PyStr.is_ascii c && ascii_word c && is_lowered c.

(** No literal of the pattern matches the character, which is no word
    character: the pattern cannot read it, and [\b] sees it as the end of
    the text. *)
Definition inert {U : Unicode} (ignorecase : bool) (r : Re.regex)
    (c : char) : bool :=
  negb (Re.is_word c)
  && literals (fun p => negb (Re.char_match ignorecase p c)) r.

(** The same of the character the text starts with, if any. *)
Definition inert_start {U : Unicode} (ignorecase : bool) (r : Re.regex)
    (tail : str) : bool :=
  match tail with [] => true | c :: _ => inert ignorecase r c end.

(** An ASCII character or a whitespace. *)
Definition plain (c : char) : bool := PyStr.is_ascii c || PyStr.isspace c.

(** The patterns of the table, category after category. *)
Definition all_patterns : list Re.regex :=
  flat_map snd HEURISTIC_PATTERNS.

(** The requests of a trace, in the order they were sent. *)
Fixpoint posts (t : list event) : list Request :=
  match t with
  | [] => []
  | Post request :: t' => request :: posts t'
  | _ :: t' => posts t'
  end.

(** The calls of the heuristic classifier in a trace. *)
Fixpoint heuristic_calls (t : list event) : list str :=
  match t with
  | [] => []
  | Call_check_with_heuristic x :: t' => x :: heuristic_calls t'
  | _ :: t' => heuristic_calls t'
  end.

(** * Properties *)

(** ** Strings *)

Lemma whitespace_only_lstrip (s : str) :
  whitespace_only (PyStr.lstrip s) = whitespace_only s.
Proof.
  induction s as [|c s IH]; simpl; [reflexivity|].
  destruct (PyStr.isspace c) eqn:E; simpl.
  - exact IH.
  - now rewrite E.
Qed.

Lemma rstrip_empty (s : str) :
  PyStr.rstrip s = [] <-> whitespace_only s = true.
Proof.
  induction s as [|c s IH]; simpl.
  - tauto.
  - destruct (PyStr.rstrip s) eqn:R.
    + destruct (PyStr.isspace c); simpl.
      * tauto.
      * split; discriminate.
    + split; [discriminate|].
      intros H. apply andb_true_iff in H. destruct H as [_ H].
      apply IH in H. discriminate.
Qed.

Lemma strip_empty (s : str) :
  PyStr.strip s = [] <-> whitespace_only s = true.
Proof.
  unfold PyStr.strip. rewrite rstrip_empty. now rewrite whitespace_only_lstrip.
Qed.

Lemma strip_truthy (s : str) :
  PyStr.truthy (PyStr.strip s) = negb (whitespace_only s).
Proof.
  destruct (whitespace_only s) eqn:W.
  - apply strip_empty in W. now rewrite W.
  - destruct (PyStr.strip s) eqn:S; [|reflexivity].
    apply strip_empty in S. congruence.
Qed.

Lemma every_app P (a b : str) :
  every P (a ++ b) = every P a && every P b.
Proof.
  induction a as [|c a IH]; simpl; [reflexivity|].
  now rewrite IH, andb_assoc.
Qed.

(** ** ASCII *)

Lemma in_codes (c : char) : PyStr.is_ascii c = true -> In c codes.
Proof.
  unfold PyStr.is_ascii, codes. intros H. apply N.ltb_lt in H.
  apply in_map_iff. exists (N.to_nat c). split.
  - apply N2Nat.id.
  - apply in_seq. lia.
Qed.

(** A property of the ASCII characters is checked on each of them. *)
Lemma ascii_cases (P : char -> bool) :
  forallb P codes = true ->
  forall c, PyStr.is_ascii c = true -> P c = true.
Proof.
  intros H c Hc. rewrite forallb_forall in H. apply H. now apply in_codes.
Qed.

Lemma ascii_cases2 (P : char -> char -> bool) :
  forallb (fun p => forallb (P p) codes) codes = true ->
  forall p c,
    PyStr.is_ascii p = true -> PyStr.is_ascii c = true -> P p c = true.
Proof.
  intros H p c Hp Hc.
  pose proof (ascii_cases _ H p Hp) as H'. cbv beta in H'.
  now apply (ascii_cases _ H' c).
Qed.

Lemma between_above (lo hi : N) (c : char) :
  (hi < 128)%N -> PyStr.is_ascii c = false -> PyStr.between lo hi c = false.
Proof.
  unfold PyStr.is_ascii, PyStr.between. intros Hhi Hc.
  apply N.ltb_ge in Hc. apply andb_false_iff. right.
  apply N.leb_gt. lia.
Qed.

Lemma ascii_isupper_above (c : char) :
  PyStr.is_ascii c = false -> PyStr.ascii_isupper c = false.
Proof. intros H. apply between_above; [reflexivity|exact H]. Qed.

Lemma ascii_lower_above (c : char) :
  PyStr.is_ascii c = false -> PyStr.ascii_lower c = c.
Proof.
  intros H. unfold PyStr.ascii_lower. now rewrite ascii_isupper_above.
Qed.

Lemma ascii_word_above (c : char) :
  PyStr.is_ascii c = false -> ascii_word c = false.
Proof.
  intros H. unfold ascii_word, PyStr.ascii_isalnum, PyStr.ascii_isalpha,
    PyStr.ascii_isupper, PyStr.ascii_islower, PyStr.ascii_isdigit.
  rewrite !between_above by (reflexivity || exact H). simpl.
  apply N.eqb_neq. unfold PyStr.is_ascii in H. apply N.ltb_ge in H. lia.
Qed.

(** A property of every character that holds of the ASCII ones by
    inspection and of the others because they are left alone. *)
Lemma char_cases (P : char -> bool) :
  forallb P codes = true ->
  (forall c, PyStr.is_ascii c = false -> P c = true) ->
  forall c, P c = true.
Proof.
  intros Ha Hn c. destruct (PyStr.is_ascii c) eqn:E.
  - now apply (ascii_cases P Ha).
  - now apply Hn.
Qed.

Lemma is_ascii_lower (c : char) :
  PyStr.is_ascii (PyStr.ascii_lower c) = PyStr.is_ascii c.
Proof.
  apply eqb_prop. revert c. apply char_cases; [vm_compute; reflexivity|].
  intros c H. rewrite !(ascii_lower_above c H). apply eqb_reflx.
Qed.

Lemma ascii_lower_idem (c : char) :
  PyStr.ascii_lower (PyStr.ascii_lower c) = PyStr.ascii_lower c.
Proof.
  apply N.eqb_eq. revert c. apply char_cases; [vm_compute; reflexivity|].
  intros c H. rewrite !(ascii_lower_above c H). apply N.eqb_refl.
Qed.

Lemma ascii_word_lower (c : char) :
  ascii_word (PyStr.ascii_lower c) = ascii_word c.
Proof.
  apply eqb_prop. revert c. apply char_cases; [vm_compute; reflexivity|].
  intros c H. rewrite !(ascii_lower_above c H). apply eqb_reflx.
Qed.

Lemma isspace_lower (c : char) :
  PyStr.isspace (PyStr.ascii_lower c) = PyStr.isspace c.
Proof.
  apply eqb_prop. revert c. apply char_cases; [vm_compute; reflexivity|].
  intros c H. rewrite !(ascii_lower_above c H). apply eqb_reflx.
Qed.

Lemma is_lowered_lower (c : char) :
  is_lowered (PyStr.ascii_lower c) = true.
Proof.
  revert c. apply char_cases; [vm_compute; reflexivity|].
  intros c H. rewrite !(ascii_lower_above c H).
  unfold is_lowered. now rewrite ascii_isupper_above.
Qed.

Lemma ascii_lower_fixed (c : char) :
  is_lowered c = true -> PyStr.ascii_lower c = c.
Proof.
  unfold is_lowered, PyStr.ascii_lower.
  now destruct (PyStr.ascii_isupper c).
Qed.

Lemma is_word_ascii {U : Unicode} (c : char) :
  PyStr.is_ascii c = true -> Re.is_word c = ascii_word c.
Proof. intros H. unfold Re.is_word. now rewrite H. Qed.

Lemma char_match_ascii {U : Unicode} (p c : char) :
  PyStr.is_ascii p = true -> PyStr.is_ascii c = true ->
  Re.char_match true p c =
  N.eqb (PyStr.ascii_lower p) (PyStr.ascii_lower c).
Proof. intros Hp Hc. unfold Re.char_match. now rewrite Hp, Hc. Qed.

Lemma ascii_text_lower (s : str) :
  ascii_text (map PyStr.ascii_lower s) = ascii_text s.
Proof.
  unfold ascii_text. induction s as [|c s IH]; simpl; [reflexivity|].
  now rewrite is_ascii_lower, IH.
Qed.

Lemma lower_from_ascii {U : Unicode} (s : str) : forall before,
  ascii_text s = true ->
  PyStr.lower_from before s = map PyStr.ascii_lower s.
Proof.
  induction s as [|c s IH]; intros before H; simpl; [reflexivity|].
  unfold ascii_text in H. simpl in H.
  apply andb_true_iff in H. destruct H as [Hc Hs].
  unfold PyStr.lower_at. rewrite Hc. simpl. now rewrite IH.
Qed.

(** On an ASCII text [lower] is the lower-casing of its letters. *)
Lemma lower_ascii {U : Unicode} (s : str) :
  ascii_text s = true -> PyStr.lower s = map PyStr.ascii_lower s.
Proof. apply lower_from_ascii. Qed.

Lemma map_lower_idem (s : str) :
  map PyStr.ascii_lower (map PyStr.ascii_lower s) = map PyStr.ascii_lower s.
Proof.
  induction s as [|c s IH]; simpl; [reflexivity|].
  now rewrite ascii_lower_idem, IH.
Qed.

(** ** Regular expressions *)

Lemma left_of_app (prev : option char) (a b : str) :
  left_of prev (a ++ b) = left_of (left_of prev a) b.
Proof. revert prev. induction a as [|x a IH]; intros prev; simpl; auto. Qed.

(** [\b] as the two sides of the position tell it. *)
Lemma at_boundary_sides {U : Unicode} (prev : option char) (rest : str) :
  Re.at_boundary prev rest =
  xorb (word_char prev) (word_char (hd_error rest)).
Proof. destruct prev, rest; reflexivity. Qed.

Lemma match_word_cons {U : Unicode} ic c w prev rest k :
  Re.match_here ic (Re.word (c :: w)) prev rest k =
  match rest with
  | [] => false
  | d :: rest' =>
      if Re.char_match ic c d
      then Re.match_here ic (Re.word w) (Some d) rest' k
      else false
  end.
Proof. destruct w; reflexivity. Qed.

Lemma match_word {U : Unicode} ic w : forall prev rest k,
  Re.match_here ic (Re.word w) prev rest k = true <->
  exists m rest' : str,
    rest = m ++ rest'
    /\ Forall2 (fun p c => Re.char_match ic p c = true) w m
    /\ k (left_of prev m) rest' = true.
Proof.
  induction w as [|c w IH]; intros prev rest k.
  - simpl. split.
    + intros H. exists [], rest. auto.
    + intros [m [rest' [-> [Hm Hk]]]]. inversion Hm; subst. exact Hk.
  - rewrite match_word_cons. destruct rest as [|d rest0].
    + split; [discriminate|].
      intros [m [rest' [Hr [Hm _]]]].
      inversion Hm; subst. discriminate Hr.
    + destruct (Re.char_match ic c d) eqn:E.
      * rewrite IH. split.
        -- intros [m [rest' [-> [Hm Hk]]]].
           exists (d :: m), rest'. simpl. auto.
        -- intros [m [rest' [Hr [Hm Hk]]]].
           inversion Hm as [|p x w' m' Hpx Hrest]; subst.
           simpl in Hr, Hk. injection Hr as -> ->.
           exists m', rest'. auto.
      * split; [discriminate|].
        intros [m [rest' [Hr [Hm _]]]].
        inversion Hm as [|p x w' m' Hpx Hrest]; subst.
        simpl in Hr. injection Hr as -> _. congruence.
Qed.

Lemma match_alternatives {U : Unicode} ic ws prev rest k :
  ws <> [] ->
  (Re.match_here ic (Re.alternatives ws) prev rest k = true <->
   exists w, In w ws /\ Re.match_here ic (Re.word w) prev rest k = true).
Proof.
  induction ws as [|w ws IH]; intros Hne; [congruence|].
  destruct ws as [|w2 ws].
  - simpl. split.
    + intros H. exists w. auto.
    + intros [w' [[<-|[]] H]]. exact H.
  - change (Re.alternatives (w :: w2 :: ws))
      with (Re.Alt (Re.word w) (Re.alternatives (w2 :: ws))).
    cbn [Re.match_here]. rewrite orb_true_iff, IH by discriminate. split.
    + intros [H|[w' [Hin H]]].
      * exists w. split; [now left|exact H].
      * exists w'. split; [now right|exact H].
    + intros [w' [[<-|Hin] H]]; [now left|].
      right. exists w'. auto.
Qed.

Lemma search_from_split {U : Unicode} ic r : forall rest prev,
  Re.search_from ic r prev rest = true <->
  exists before after : str,
    rest = before ++ after
    /\ Re.match_at ic r (left_of prev before) after = true.
Proof.
  induction rest as [|c rest IH]; intros prev; simpl.
  - rewrite orb_false_r. split.
    + intros H. exists [], []. auto.
    + intros [before [after [Hr H]]].
      symmetry in Hr. apply app_eq_nil in Hr. destruct Hr as [-> ->].
      exact H.
  - rewrite orb_true_iff, IH. split.
    + intros [H|[before [after [-> H]]]].
      * exists [], (c :: rest). auto.
      * exists (c :: before), after. auto.
    + intros [before [after [Hr H]]].
      destruct before as [|x before].
      * left. simpl in Hr, H. now rewrite Hr.
      * right. simpl in Hr, H. injection Hr as -> ->.
        exists before, after. auto.
Qed.

(** [re.search] of [\b(w1|...|wn)\b] finds a stretch of the text that one
    of the words matches literal by literal and that has a word character
    on one side only of each of its ends. *)
Lemma search_words {U : Unicode} (ws : list str) (text : str) ic :
  ws <> [] ->
  (Re.search (Re.words ws) text ic = true <->
   exists w, In w ws /\ matches_as_word ic w text).
Proof.
  intros Hne. unfold Re.search.
  rewrite search_from_split. unfold matches_as_word. split.
  - intros [before [after0 [-> H]]].
    unfold Re.match_at, Re.words in H. cbn [Re.match_here] in H.
    destruct (Re.at_boundary (left_of None before) after0) eqn:B1;
      [|discriminate H].
    apply match_alternatives in H; [|exact Hne].
    destruct H as [w [Hin H]]. apply match_word in H.
    destruct H as [m [after [-> [Hm H]]]].
    destruct (Re.at_boundary (left_of (left_of None before) m) after) eqn:B2;
      [|discriminate H].
    rewrite at_boundary_sides in B1, B2.
    exists w. split; [exact Hin|].
    exists before, m, after. rewrite left_of_app. auto.
  - intros [w [Hin [before [m [after [-> [Hm [B1 B2]]]]]]]].
    exists before, (m ++ after). split; [reflexivity|].
    rewrite <- at_boundary_sides in B1, B2.
    unfold Re.match_at, Re.words. cbn [Re.match_here]. rewrite B1.
    apply match_alternatives; [exact Hne|].
    exists w. split; [exact Hin|].
    apply match_word. exists m, after.
    rewrite left_of_app in B2. rewrite B2. auto.
Qed.

(** ** Matching in an ASCII text *)

Lemma forall2_match_ascii {U : Unicode} (w : str) : forall m,
  ascii_text w = true -> ascii_text m = true ->
  (Forall2 (fun p c => Re.char_match true p c = true) w m <->
   map PyStr.ascii_lower m = map PyStr.ascii_lower w).
Proof.
  unfold ascii_text.
  induction w as [|p w IH]; intros m Hw Hm.
  - split.
    + intros H. inversion H. reflexivity.
    + destruct m; [constructor|discriminate].
  - simpl in Hw. apply andb_true_iff in Hw. destruct Hw as [Hp Hw].
    destruct m as [|c m].
    + split; [intros H; inversion H|discriminate].
    + simpl in Hm. apply andb_true_iff in Hm. destruct Hm as [Hc Hm].
      split.
      * intros H. inversion H as [|? ? ? ? Hpc Hrest]; subst.
        rewrite char_match_ascii in Hpc by assumption.
        apply N.eqb_eq in Hpc. cbn [map]. rewrite Hpc. f_equal.
        now apply IH.
      * cbn [map]. intros H. injection H as Hpc Hrest. constructor.
        -- cbv beta. rewrite char_match_ascii by assumption.
           apply N.eqb_eq. congruence.
        -- now apply IH.
Qed.

Lemma word_char_ascii {U : Unicode} (side : option char) :
  ascii_side side = true -> word_char side = ascii_word_char side.
Proof. destruct side as [c|]; simpl; [apply is_word_ascii|reflexivity]. Qed.

Lemma left_of_ascii (s : str) : forall prev,
  ascii_side prev = true -> ascii_text s = true ->
  ascii_side (left_of prev s) = true.
Proof.
  unfold ascii_text.
  induction s as [|c s IH]; intros prev Hp Hs; simpl; [exact Hp|].
  simpl in Hs. apply andb_true_iff in Hs. destruct Hs as [Hc Hs].
  now apply IH.
Qed.

Lemma hd_error_ascii (s : str) :
  ascii_text s = true -> ascii_side (hd_error s) = true.
Proof.
  unfold ascii_text. destruct s as [|c s]; simpl; [reflexivity|].
  intros H. apply andb_true_iff in H. now destruct H.
Qed.

(** In an ASCII text, to be matched as a word under [IGNORECASE] is to
    occur as a word, letter case apart. *)
Lemma matches_iff_occurs {U : Unicode} (w text : str) :
  ascii_text text = true -> ascii_text w = true ->
  (matches_as_word true w text <-> occurs_as_word w text).
Proof.
  intros Ht Hw. unfold matches_as_word, occurs_as_word.
  split; intros [before [m [after [E [Hm [B1 B2]]]]]];
    exists before, m, after; subst text;
    unfold ascii_text in Ht; rewrite !every_app in Ht;
    apply andb_true_iff in Ht; destruct Ht as [Hb Hma];
    apply andb_true_iff in Hma; destruct Hma as [Hm' Ha];
    assert (S1 : ascii_side (left_of None before) = true)
      by (now apply left_of_ascii);
    assert (S2 : ascii_side (hd_error (m ++ after)) = true)
      by (apply hd_error_ascii; unfold ascii_text;
          now rewrite every_app, Hm', Ha);
    assert (S3 : ascii_side (left_of None (before ++ m)) = true)
      by (apply left_of_ascii; [reflexivity|];
          unfold ascii_text; now rewrite every_app, Hb, Hm');
    assert (S4 : ascii_side (hd_error after) = true)
      by (now apply hd_error_ascii).
  - rewrite !word_char_ascii in B1, B2 by assumption.
    apply forall2_match_ascii in Hm; auto.
  - rewrite !word_char_ascii by assumption.
    apply forall2_match_ascii in Hm; auto.
Qed.

Lemma ascii_word_char_lower (side : option char) :
  ascii_word_char (option_map PyStr.ascii_lower side) = ascii_word_char side.
Proof. destruct side; simpl; [apply ascii_word_lower|reflexivity]. Qed.

Lemma left_of_map_lower (s : str) : forall prev,
  left_of (option_map PyStr.ascii_lower prev) (map PyStr.ascii_lower s) =
  option_map PyStr.ascii_lower (left_of prev s).
Proof.
  induction s as [|c s IH]; intros prev; simpl; [reflexivity|].
  apply (IH (Some c)).
Qed.

Lemma hd_error_map_lower (s : str) :
  hd_error (map PyStr.ascii_lower s) =
  option_map PyStr.ascii_lower (hd_error s).
Proof. destruct s; reflexivity. Qed.

Lemma sides_lower (a b : str) :
  xorb (ascii_word_char (left_of None (map PyStr.ascii_lower a)))
       (ascii_word_char (hd_error (map PyStr.ascii_lower b))) =
  xorb (ascii_word_char (left_of None a)) (ascii_word_char (hd_error b)).
Proof.
  pose proof (left_of_map_lower a None) as L. cbn [option_map] in L.
  rewrite L, hd_error_map_lower.
  now rewrite !ascii_word_char_lower.
Qed.

(** Lower-casing the text changes neither what occurs in it nor where the
    word boundaries are. *)
Lemma occurs_as_word_lower (w text : str) :
  occurs_as_word w (map PyStr.ascii_lower text) <-> occurs_as_word w text.
Proof.
  unfold occurs_as_word. split.
  - intros [before [m [after [Ht [Hm [B1 B2]]]]]].
    apply map_eq_app in Ht. destruct Ht as [b' [ma' [-> [Hb Hma]]]].
    apply map_eq_app in Hma. destruct Hma as [m' [a' [-> [Hm' Ha]]]].
    exists b', m', a'. subst before m after.
    rewrite map_lower_idem in Hm.
    rewrite <- !map_app, sides_lower in B1, B2. auto.
  - intros [before [m [after [-> [Hm [B1 B2]]]]]].
    exists (map PyStr.ascii_lower before), (map PyStr.ascii_lower m),
      (map PyStr.ascii_lower after).
    rewrite !map_app, map_lower_idem.
    rewrite <- !map_app, !sides_lower. auto.
Qed.

(** In an ASCII text, [re.search] of [\b(w1|...|wn)\b] under [IGNORECASE]
    on the lower-cased text finds one of the words standing in the text
    between two word boundaries, letter case apart. *)
Lemma search_words_ascii {U : Unicode} (ws : list str) (text : str) :
  ws <> [] ->
  ascii_text text = true ->
  (forall w, In w ws -> ascii_text w = true) ->
  (Re.search (Re.words ws) (PyStr.lower text) Re.IGNORECASE = true <->
   exists w, In w ws /\ occurs_as_word w text).
Proof.
  intros Hne Ht Hws. rewrite search_words by exact Hne.
  rewrite lower_ascii by exact Ht. unfold Re.IGNORECASE.
  split; intros [w [Hw H]]; exists w; (split; [exact Hw|]).
  - apply occurs_as_word_lower.
    apply (matches_iff_occurs w (map PyStr.ascii_lower text)); auto.
    now rewrite ascii_text_lower.
  - apply (matches_iff_occurs w (map PyStr.ascii_lower text)); auto.
    + now rewrite ascii_text_lower.
    + now apply occurs_as_word_lower.
Qed.

(** ** The heuristic classifier *)

Lemma for_pattern_found {U : Unicode} category patterns text_lower rs :
  for_pattern category patterns text_lower rs =
  if found text_lower patterns then rs ++ [detected category] else rs.
Proof.
  induction patterns as [|p ps IH]; simpl; [reflexivity|].
  destruct (Re.search p text_lower Re.IGNORECASE); simpl; auto.
Qed.


Lemma for_category_filter {U : Unicode} items text_lower rs :
  for_category items text_lower rs =
  rs ++ map (fun cp => detected (fst cp))
            (filter (fun cp => found text_lower (snd cp)) items).
Proof.
  revert rs. induction items as [|[c ps] items IH]; intros rs; simpl.
  - now rewrite app_nil_r.
  - rewrite IH, for_pattern_found.
    destruct (found text_lower ps); simpl.
    + now rewrite <- app_assoc.
    + reflexivity.
Qed.



Lemma filter_nil_iff {A : Type} (f : A -> bool) (l : list A) :
  filter f l = [] <-> forall a, In a l -> f a = false.
Proof.
  induction l as [|a l IH]; simpl.
  - split; [intros _ b []|reflexivity].
  - destruct (f a) eqn:E.
    + split; [discriminate|].
      intros H. specialize (H a (or_introl eq_refl)). congruence.
    + rewrite IH. split.
      * intros H b [<-|Hb]; auto.
      * intros H b Hb. apply H. now right.
Qed.

Lemma heuristic_reasons {U : Unicode} (text : str) :
  reasons (check_with_heuristic text) =
  map (fun cp => detected (fst cp))
      (filter (fun cp => found (PyStr.lower text) (snd cp)) HEURISTIC_PATTERNS).
Proof.
  unfold check_with_heuristic. cbn [reasons].
  now rewrite for_category_filter.
Qed.

Lemma heuristic_safe {U : Unicode} (text : str) :
  safe (check_with_heuristic text) = true <->
  reasons (check_with_heuristic text) = [].
Proof.
  unfold check_with_heuristic. cbn [safe reasons].
  destruct (for_category HEURISTIC_PATTERNS (PyStr.lower text) []); simpl.
  - tauto.
  - split; discriminate.
Qed.

Lemma heuristic_mode {U : Unicode} (text : str) :
  mode (check_with_heuristic text) = "heuristic".
Proof. reflexivity. Qed.




(** C7: on "You are so stupid and ugly" the heuristic classifier answers
    unsafe with the single reason "Detected: Harassment": the first
    harassment pattern finds "stupid" and finds "ugly", the category gives
    one reason, and no pattern of another category is found. *)
Theorem stupid_and_ugly {U : Unicode} :
  let text : str := "You are so stupid and ugly" in
  let r := check_with_heuristic text in
  let harassment1 :=
    Re.words ["stupid"; "idiot"; "moron"; "dumb"; "ugly"; "fat"; "gross"] in
  safe r = false
  /\ reasons r = ["Detected: Harassment"]
  /\ nth_error HEURISTIC_PATTERNS 1 =
       Some (of_string "harassment",
             [ harassment1;
               Re.words ["hate"; "despise"; "loathe"];
               Re.words ["harass"; "bully"; "intimidate"] ])
  /\ Re.search harassment1 "you are so stupid and" Re.IGNORECASE = true
  /\ Re.search harassment1 "you are so and ugly" Re.IGNORECASE = true
  /\ map fst (filter (fun cp => found (PyStr.lower text) (snd cp))
                     HEURISTIC_PATTERNS) = ["harassment"].
Proof.
  cbv zeta. repeat split; vm_compute; reflexivity.
Qed.

(** The table prints back to the pattern texts of the source. *)
Lemma HEURISTIC_PATTERNS_source :
  map (fun cp => (fst cp, map Re.source (snd cp))) HEURISTIC_PATTERNS =
  [ ("violence",
      [ "\b(kill|murder|assault|attack|fight|violence|harm|hurt)\b";
        "\b(weapon|gun|knife|bomb|explosive)\b";
        "\b(threat|threaten|intimidate)\b" ]);
    ("harassment",
      [ "\b(stupid|idiot|moron|dumb|ugly|fat|gross)\b";
        "\b(hate|despise|loathe)\b";
        "\b(harass|bully|intimidate)\b" ]);
    ("inappropriate",
      [ "\b(sex|sexual|nude|naked|porn|adult)\b";
        "\b(drug|alcohol|drunk|high|stoned)\b";
        "\b(scam|fraud|cheat|steal|rob)\b" ]);
    ("spam",
      [ "\b(buy|sell|promo|discount|offer|deal)\b";
        "\b(click|link|website|url)\b";
        "\b(follow|subscribe|like|share)\b" ]) ].
Proof. vm_compute. reflexivity. Qed.

Example coffee {U : Unicode} :
  check_with_heuristic "Let's grab coffee sometime" =
  {| safe := true; reasons := []; mode := "heuristic" |}.
Proof. vm_compute. reflexivity. Qed.

Example every_category {U : Unicode} :
  reasons (check_with_heuristic
             "I HATE you, click this LINK to buy a gun; sexual") =
  [ "Detected: Violence"; "Detected: Harassment";
    "Detected: Inappropriate"; "Detected: Spam" ].
Proof. vm_compute. reflexivity. Qed.

(** The second alternative is reached when the first one stops short of a
    word boundary. *)
Example longer_alternative {U : Unicode} :
  Re.search (Re.words ["sex"; "sexual"]) "sexual content" Re.IGNORECASE
  = true.
Proof. vm_compute. reflexivity. Qed.

(** Letters, digits and the underscore continue a word. *)
Example inside_a_word {U : Unicode} :
  Re.search (Re.words ["kill"]) "skill killer _kill kill2" Re.IGNORECASE
  = false.
Proof. vm_compute. reflexivity. Qed.

Example detected_examples {U : Unicode} :
  detected "self_harm" = "Detected: Self Harm"
  /\ detected "hate/threatening" = "Detected: Hate/Threatening"
  /\ detected "SEXUAL" = "Detected: Sexual"
  /\ PyStr.title "3d o'neil" = "3D O'Neil".
Proof. repeat split; vm_compute; reflexivity. Qed.

(** What the database says of a letter beyond ASCII is what the
    classifiers do with it: where U+00E9 is a word character, the text
    "kill" followed by U+00E9 is one word and is safe; and the reason of
    the category U+00E9 followed by "mile_zola" starts with what the
    database gives as the title case of U+00E9. *)
Example beyond_ascii {U : Unicode} :
  (uni_word 233 = true ->
   uni_lower [107; 105; 108; 108] 233 [] = [233] ->
   safe (check_with_heuristic [107; 105; 108; 108; 233]) = true)%N
  /\ (uni_cased 233 = true ->
      detected (233 :: of_string "mile_zola") =
      of_string "Detected: " ++ uni_title 233 ++ of_string "mile Zola")%N.
Proof.
  split.
  - intros Hw Hl.
    assert (L : PyStr.lower [107; 105; 108; 108; 233]%N
                = [107; 105; 108; 108; 233]%N)
      by (cbv -[uni_lower] in Hl |- *; rewrite Hl; reflexivity).
    unfold check_with_heuristic. rewrite L.
    cbv -[uni_word] in Hw |- *. rewrite Hw. reflexivity.
  - intros Hc. unfold detected, PyStr.title.
    change (PyStr.title_from false []
              (PyStr.replace (ord "_") (ord " ")
                 (233%N :: of_string "mile_zola")))
      with (uni_title 233%N ++
            PyStr.title_from (uni_cased 233%N) [233%N]
              (of_string "mile zola")).
    rewrite Hc. do 2 f_equal.
Qed.

(** ** The moderation client *)

Lemma check_with_openai_steps {U : Unicode} (text : str) (w : world) :
  check_with_openai text w =
  let request := moderation_request w text in
  match post w request with
  | Raise e => failed w text e
  | Return response =>
  match raise_for_status response with
  | Some e => failed w text e
  | None =>
  match response_json response with
  | Raise e => failed w text e
  | Return data =>
  match Py.getitem data "results" with
  | Raise e => failed w text e
  | Return results =>
  match Py.getitem0 results with
  | Raise e => failed w text e
  | Return result =>
  match Py.getitem result "flagged" with
  | Raise e => failed w text e
  | Return flagged =>
  match Py.getitem result "categories" with
  | Raise e => failed w text e
  | Return categories =>
      if Py.truthy flagged
      then match Py.items categories with
           | Raise e => failed w text e
           | Return items =>
               ([Post request],
                Return {| safe := false;
                          reasons := for_item items [];
                          mode := "openai" |})
           end
      else ([Post request],
            Return {| safe := true; reasons := []; mode := "openai" |})
  end end end end end end end.
Proof.
  run_M. fold (moderation_request w text).
  destruct (post w (moderation_request w text)) as [response|e];
    [|reflexivity].
  destruct (raise_for_status response) as [e|]; [reflexivity|].
  destruct (response_json response) as [data|e]; [|reflexivity].
  destruct (Py.getitem data "results") as [results|e]; [|reflexivity].
  destruct (Py.getitem0 results) as [result|e]; [|reflexivity].
  destruct (Py.getitem result "flagged") as [flagged|e]; [|reflexivity].
  destruct (Py.getitem result "categories") as [categories|e];
    [|reflexivity].
  destruct (Py.truthy flagged); [|reflexivity].
  destruct (Py.items categories) as [items|e]; reflexivity.
Qed.

Lemma for_item_filter {U : Unicode} items rs :
  for_item items rs =
  rs ++ map (fun cv => detected (fst cv))
            (filter (fun cv => Py.truthy (snd cv)) items).
Proof.
  revert rs. induction items as [|[c v] items IH]; intros rs; simpl.
  - now rewrite app_nil_r.
  - rewrite IH. destruct (Py.truthy v); simpl.
    + now rewrite <- app_assoc.
    + reflexivity.
Qed.

Lemma for_item_booleans {U : Unicode} (categories : list (str * bool)) :
  forall rs,
    for_item (map (fun cb => (fst cb, PBool (snd cb))) categories) rs =
    rs ++ map (fun cb => detected (fst cb)) (filter snd categories).
Proof.
  induction categories as [|[c b] cs IH]; intros rs; simpl.
  - now rewrite app_nil_r.
  - rewrite IH. destruct b; simpl; [now rewrite <- app_assoc|reflexivity].
Qed.

Lemma openai_unflagged {U : Unicode} w text flagged categories :
  upstream_says w text flagged categories ->
  Py.truthy flagged = false ->
  check_with_openai text w =
  ([Post (moderation_request w text)],
   Return {| safe := true; reasons := []; mode := "openai" |}).
Proof.
  intros [response [data [results [result
            [H1 [H2 [H3 [H4 [H5 [H6 H7]]]]]]]]]] F.
  rewrite check_with_openai_steps. cbv zeta.
  now rewrite H1, H2, H3, H4, H5, H6, H7, F.
Qed.

Lemma openai_flagged {U : Unicode} w text flagged items :
  upstream_says w text flagged (PDict items) ->
  Py.truthy flagged = true ->
  check_with_openai text w =
  ([Post (moderation_request w text)],
   Return {| safe := false; reasons := for_item items []; mode := "openai" |}).
Proof.
  intros [response [data [results [result
            [H1 [H2 [H3 [H4 [H5 [H6 H7]]]]]]]]]] F.
  rewrite check_with_openai_steps. cbv zeta.
  now rewrite H1, H2, H3, H4, H5, H6, H7, F.
Qed.

(** Every run of the client either returns an "openai" verdict read off
    [flagged] and [categories], or prints what it met and raises the one
    [HTTPException]. *)
Lemma check_with_openai_cases {U : Unicode} (text : str) (w : world) :
  (exists flagged categories r,
      upstream_says w text flagged categories
      /\ check_with_openai text w =
           ([Post (moderation_request w text)], Return r)
      /\ mode r = "openai"
      /\ safe r = negb (Py.truthy flagged)
      /\ (Py.truthy flagged = false -> reasons r = [])
      /\ (Py.truthy flagged = true ->
          exists items, categories = PDict items
                        /\ reasons r = for_item items []))
  \/ (exists e, check_with_openai text w = failed w text e).
Proof.
  rewrite check_with_openai_steps. cbv zeta. unfold upstream_says.
  destruct (post w (moderation_request w text)) as [response|e] eqn:H1;
    [|right; eauto].
  destruct (raise_for_status response) as [e|] eqn:H2; [right; eauto|].
  destruct (response_json response) as [data|e] eqn:H3; [|right; eauto].
  destruct (Py.getitem data "results") as [results|e] eqn:H4;
    [|right; eauto].
  destruct (Py.getitem0 results) as [result|e] eqn:H5; [|right; eauto].
  destruct (Py.getitem result "flagged") as [flagged|e] eqn:H6;
    [|right; eauto].
  destruct (Py.getitem result "categories") as [categories|e] eqn:H7;
    [|right; eauto].
  destruct (Py.truthy flagged) eqn:F.
  - destruct (Py.items categories) as [items|e] eqn:H8; [|right; eauto].
    left. exists flagged, categories. eexists.
    split; [exists response, data, results, result; auto 10|].
    split; [reflexivity|]. cbn [mode safe reasons]. rewrite F.
    split; [reflexivity|]. split; [reflexivity|].
    split; [discriminate|]. intros _. exists items. split; [|reflexivity].
    destruct categories; try discriminate H8. now injection H8 as ->.
  - left. exists flagged, categories. eexists.
    split; [exists response, data, results, result; auto 10|].
    split; [reflexivity|]. cbn [mode safe reasons]. rewrite F.
    split; [reflexivity|]. split; [reflexivity|].
    split; [reflexivity|]. discriminate.
Qed.

Lemma check_with_openai_raises {U : Unicode}
    (text : str) (w : world) (e : exn) :
  result (check_with_openai text) w = Raise e -> e = unavailable.
Proof.
  unfold result.
  destruct (check_with_openai_cases text w)
    as [[flagged [categories [r [_ [-> _]]]]]|[e' ->]]; simpl.
  - discriminate.
  - congruence.
Qed.

(** The upstream call fails on each of: an exception in [client.post]
    (no connection, timeout), an error status, a body that is not JSON,
    and a payload that the subscripts do not fit. *)
Lemma upstream_failures {U : Unicode} (w : world) (text : str) :
  (forall e, post w (moderation_request w text) = Raise e ->
             check_with_openai text w = failed w text e)
  /\ (forall response e,
        post w (moderation_request w text) = Return response ->
        raise_for_status response = Some e ->
        check_with_openai text w = failed w text e)
  /\ (forall response e,
        post w (moderation_request w text) = Return response ->
        raise_for_status response = None ->
        response_json response = Raise e ->
        check_with_openai text w = failed w text e)
  /\ (forall response data e,
        post w (moderation_request w text) = Return response ->
        raise_for_status response = None ->
        response_json response = Return data ->
        Py.getitem data "results" = Raise e ->
        check_with_openai text w = failed w text e).
Proof.
  repeat split; intros; rewrite check_with_openai_steps; cbv zeta.
  - now rewrite H.
  - now rewrite H, H0.
  - now rewrite H, H0, H1.
  - now rewrite H, H0, H1, H2.
Qed.

Lemma answering_says key flagged categories text :
  upstream_says (answering key (moderation flagged categories)) text
                flagged categories.
Proof. unfold upstream_says. repeat eexists. Qed.

(** C1, as the program has it: on a well-formed upstream answer the client
    returns mode "openai" and safe = not flagged; when flagged is true the
    reasons are one entry per category marked true, in the order of the
    answer, each "Detected: <Category Title Case>" built as the heuristic
    builds it; when flagged is false there are no reasons. *)
Theorem well_formed_answer_verdict {U : Unicode}
    (w : world) (text : str)
    (flagged : bool) (categories : list (str * bool)) :
  upstream_says w text (PBool flagged) (booleans categories) ->
  exists r,
    check_with_openai text w = ([Post (moderation_request w text)], Return r)
    /\ mode r = "openai"
    /\ safe r = negb flagged
    /\ reasons r =
       (if flagged
        then map (fun cb => of_string "Detected: " ++
                   PyStr.title (PyStr.replace (ord "_") (ord " ") (fst cb)))
                 (filter snd categories)
        else [])
    /\ (flagged = true ->
        List.length (reasons r) = List.length (filter snd categories))
    /\ (forall category pattern text_lower,
          Re.search pattern text_lower Re.IGNORECASE = true ->
          for_item [(category, PBool true)] [] =
          for_pattern category [pattern] text_lower []).
Proof.
  intros Hsays. pose proof (for_item_booleans categories) as Hitems.
  destruct flagged.
  - eexists. split.
    + apply (openai_flagged w text (PBool true) _ Hsays). reflexivity.
    + cbn [mode safe reasons]. rewrite Hitems. cbn [app].
      repeat split.
      * intros _. now rewrite length_map.
      * intros category pattern text_lower Hfound. simpl. now rewrite Hfound.
  - eexists. split.
    + apply (openai_unflagged w text (PBool false) _ Hsays). reflexivity.
    + cbn [mode safe reasons]. repeat split.
      * discriminate.
      * intros category pattern text_lower Hfound. simpl. now rewrite Hfound.
Qed.

Lemma well_formed_answer_verdict_witness :
  exists r,
    check_with_openai (U := ascii_only) "I will hurt you"
      (answering (Some "sk-test")
         (moderation (PBool true)
            (booleans [ ("hate", false); ("hate/threatening", true);
                        ("self_harm", false); ("violence", true) ])))
    = ([Post (moderation_request
                (answering (Some "sk-test") PNone) "I will hurt you")],
       Return r)
    /\ r = {| safe := false;
              reasons := ["Detected: Hate/Threatening"; "Detected: Violence"];
              mode := "openai" |}.
Proof.
  destruct (well_formed_answer_verdict (U := ascii_only)
              (answering (Some "sk-test")
                 (moderation (PBool true)
                    (booleans [ ("hate", false); ("hate/threatening", true);
                                ("self_harm", false); ("violence", true) ])))
              "I will hurt you" true
              [ ("hate", false); ("hate/threatening", true);
                ("self_harm", false); ("violence", true) ]
              (answering_says _ _ _ _))
    as [r [Hrun [Hmode [Hsafe [Hreasons _]]]]].
  exists r. split; [exact Hrun|].
  destruct r as [s rs m]; cbn [safe reasons mode] in *.
  now rewrite Hmode, Hsafe, Hreasons.
Defined.

(** C1 as the specification words it fails where flagged is false and a
    category is marked true: the client returns no reasons, not one per
    category marked true. *)
Lemma unflagged_answer_drops_true_categories :
  upstream_says
    (answering (Some "sk-test")
       (moderation (PBool false) (booleans [("hate", true)])))
    "hello" (PBool false) (booleans [("hate", true)])
  /\ result (check_with_openai (U := ascii_only) "hello")
            (answering (Some "sk-test")
               (moderation (PBool false) (booleans [("hate", true)])))
     = Return {| safe := true; reasons := []; mode := "openai" |}
  /\ one_reason_per_true_category (U := ascii_only) [("hate", true)]
     = ["Detected: Hate"]
  /\ ~ (exists r,
          result (check_with_openai (U := ascii_only) "hello")
                 (answering (Some "sk-test")
                    (moderation (PBool false) (booleans [("hate", true)])))
          = Return r
          /\ reasons r
             = one_reason_per_true_category (U := ascii_only)
                 [("hate", true)]).
Proof.
  split; [apply answering_says|].
  split; [reflexivity|]. split; [reflexivity|].
  intros [r [Hr Hreasons]]. vm_compute in Hr. injection Hr as <-.
  discriminate Hreasons.
Qed.

(** C9: on the upstream path, an answer whose flagged is false gives an
    empty list of reasons whatever its categories hold, so a verdict of the
    client with safe = true has no reasons; a verdict of the client breaks
    "safe iff no reasons" only as safe = false with no reasons, which is
    what a truthy flagged with no truthy category gives. *)
Theorem unflagged_answer_has_no_reasons {U : Unicode} (w : world) (text : str) :
  (forall categories,
      upstream_says w text (PBool false) categories ->
      result (check_with_openai text) w =
      Return {| safe := true; reasons := []; mode := "openai" |})
  /\ (forall r,
        result (check_with_openai text) w = Return r ->
        safe r = true -> reasons r = [])
  /\ (forall r,
        result (check_with_openai text) w = Return r ->
        ~ (safe r = true <-> reasons r = []) ->
        safe r = false /\ reasons r = [])
  /\ (forall flagged items,
        upstream_says w text flagged (PDict items) ->
        Py.truthy flagged = true ->
        (forall category is_flagged,
            In (category, is_flagged) items ->
            Py.truthy is_flagged = false) ->
        result (check_with_openai text) w =
        Return {| safe := false; reasons := []; mode := "openai" |}).
Proof.
  assert (Hsafe : forall r,
             result (check_with_openai text) w = Return r ->
             safe r = true -> reasons r = []).
  { intros r Hr Hs. unfold result in Hr.
    destruct (check_with_openai_cases text w)
      as [[flagged [categories [r' [_ [E [_ [S [Hno _]]]]]]]]|[e E]];
      rewrite E in Hr; simpl in Hr; [|discriminate].
    injection Hr as <-. apply Hno.
    rewrite Hs in S. now destruct (Py.truthy flagged). }
  split.
  { intros categories Hsays. unfold result.
    now rewrite (openai_unflagged w text (PBool false) categories). }
  split; [exact Hsafe|].
  split.
  { intros r Hr Hbroken.
    destruct (safe r) eqn:S.
    - exfalso. apply Hbroken. split; [intros _|reflexivity].
      now apply Hsafe.
    - split; [reflexivity|].
      destruct (reasons r) eqn:R; [reflexivity|].
      exfalso. apply Hbroken. split; discriminate. }
  intros flagged items Hsays Hf Hnone. unfold result.
  rewrite (openai_flagged w text flagged items Hsays Hf). cbn [snd].
  rewrite for_item_filter. cbn [app].
  replace (filter (fun cv => Py.truthy (snd cv)) items) with
    (@nil (str * pyval)); [reflexivity|].
  symmetry. apply filter_nil_iff. intros [c v] Hin. now apply (Hnone c).
Qed.

Lemma unflagged_answer_has_no_reasons_witness :
  result (check_with_openai (U := ascii_only) "hello")
         (answering (Some "sk-test")
            (moderation (PBool false)
               (PDict [("hate", PBool true); ("violence", PBool true)])))
  = Return {| safe := true; reasons := []; mode := "openai" |}
  /\ result (check_with_openai (U := ascii_only) "hello")
            (answering (Some "sk-test")
               (moderation (PBool true) (PDict [("hate", PBool false)])))
     = Return {| safe := false; reasons := []; mode := "openai" |}.
Proof.
  split.
  - apply (proj1 (unflagged_answer_has_no_reasons (U := ascii_only)
                    (answering (Some "sk-test")
                       (moderation (PBool false)
                          (PDict [("hate", PBool true);
                                  ("violence", PBool true)])))
                    "hello")
                 (PDict [("hate", PBool true); ("violence", PBool true)])).
    apply answering_says.
  - apply (proj2 (proj2 (proj2 (unflagged_answer_has_no_reasons
                    (U := ascii_only)
                    (answering (Some "sk-test")
                       (moderation (PBool true)
                          (PDict [("hate", PBool false)])))
                    "hello")))
                 (PBool true) [("hate", PBool false)]).
    + apply answering_says.
    + reflexivity.
    + intros category is_flagged [H|[]]. injection H as _ <-. reflexivity.
Defined.

(** ** The check endpoint *)

(** A payload off the documented shape is answered all the same when the
    subscripts fit it: a falsy [flagged] leaves [categories] unread. *)
Example off_shape_payload_is_answered {U : Unicode} :
  result (check_text {| text := "hello" |})
         (answering (Some "sk-test") (moderation (PInt 0) (PInt 5)))
  = Return {| safe := true; reasons := []; mode := "openai" |}.
Proof. reflexivity. Qed.

(** A truthy [flagged] with categories that are no object is a failure,
    and the heuristic answers. *)
Example off_shape_payload_falls_back {U : Unicode} :
  result (check_text {| text := "hello" |})
         (answering (Some "sk-test") (moderation (PStr "no") (PInt 5)))
  = Return {| safe := true; reasons := []; mode := "heuristic" |}.
Proof. vm_compute. reflexivity. Qed.

Lemma check_text_steps {U : Unicode} (request : CheckRequest) (w : world) :
  check_text request w =
  if whitespace_only (text request)
  then ([], Return no_classification)
  else if Py.truthy_env (environ w "OPENAI_API_KEY")
  then
    match check_with_openai (text request) w with
    | (t, Return r) => (Call_check_with_openai (text request) :: t, Return r)
    | (t, Raise e) =>
        (Call_check_with_openai (text request) :: t
           ++ [Call_check_with_heuristic (text request)],
         Return (check_with_heuristic (text request)))
    end
  else ([Call_check_with_heuristic (text request)],
        Return (check_with_heuristic (text request))).
Proof.
  unfold check_text. rewrite strip_truthy, negb_involutive.
  destruct (whitespace_only (text request)); [reflexivity|].
  unfold bind at 1. unfold os_getenv at 1. cbn [app].
  destruct (Py.truthy_env (environ w "OPENAI_API_KEY")).
  - destruct (check_with_openai (text request) w) as [t [r|e]] eqn:E.
    + unfold bind, try_except, call, ret. rewrite E. cbn.
      now rewrite ?app_nil_r.
    + pose proof (check_with_openai_raises (text request) w e) as He.
      unfold result in He. rewrite E in He. specialize (He eq_refl). subst e.
      unfold bind, try_except, call, ret. rewrite E. cbn.
      now rewrite ?app_nil_r.
  - reflexivity.
Qed.

(** The check endpoint always returns a verdict. *)
Lemma check_text_returns {U : Unicode} (w : world) (request : CheckRequest) :
  exists r, result (check_text request) w = Return r.
Proof.
  unfold result. rewrite check_text_steps.
  destruct (whitespace_only (text request)); [eexists; reflexivity|].
  destruct (Py.truthy_env (environ w "OPENAI_API_KEY"));
    [|eexists; reflexivity].
  destruct (check_with_openai (text request) w) as [t [r|e]];
    eexists; reflexivity.
Qed.

(** C2: when the text is empty or consists only of whitespace, the check
    endpoint returns safe = true, reasons = [], mode = "none" and does
    nothing else (no upstream call, no heuristic classification), whatever
    the environment holds. *)
Theorem blank_text_is_not_classified {U : Unicode}
    (w : world) (request : CheckRequest) :
  whitespace_only (text request) = true ->
  check_text request w =
  ([], Return {| safe := true; reasons := []; mode := "none" |}).
Proof.
  intros H. rewrite check_text_steps, H. reflexivity.
Qed.

Lemma blank_text_is_not_classified_witness :
  whitespace_only ([32; 160; 9; 8195; 12288; 133]%N) = true
  /\ check_text (U := ascii_only)
       {| text := [32; 160; 9; 8195; 12288; 133]%N |}
       (answering (Some "sk-test")
          (moderation (PBool true) (PDict [("hate", PBool true)])))
     = ([], Return {| safe := true; reasons := []; mode := "none" |}).
Proof.
  split; [reflexivity|].
  apply (blank_text_is_not_classified (U := ascii_only)
           (answering (Some "sk-test")
              (moderation (PBool true) (PDict [("hate", PBool true)])))
           {| text := [32; 160; 9; 8195; 12288; 133]%N |}).
  reflexivity.
Defined.

(** C3: for a text that is not blank and a credential in the environment,
    when the upstream moderation call fails (the client raises, whatever it
    met), the check endpoint returns the heuristic classifier's verdict,
    whose mode is "heuristic"; the exception does not reach the caller. *)
Theorem upstream_failure_falls_back {U : Unicode}
    (w : world) (request : CheckRequest) (e : exn) :
  whitespace_only (text request) = false ->
  Py.truthy_env (environ w "OPENAI_API_KEY") = true ->
  result (check_with_openai (text request)) w = Raise e ->
  result (check_text request) w = Return (check_with_heuristic (text request))
  /\ mode (check_with_heuristic (text request)) = "heuristic"
  /\ In (Call_check_with_heuristic (text request))
        (trace (check_text request) w).
Proof.
  intros Hblank Hkey Hfail. unfold result, trace in *.
  rewrite check_text_steps, Hblank, Hkey.
  destruct (check_with_openai (text request) w) as [t [r|e']];
    simpl in Hfail; [discriminate|].
  cbn [fst snd]. split; [reflexivity|]. split; [reflexivity|].
  right. apply in_or_app. right. now left.
Qed.

Lemma upstream_failure_falls_back_witness :
  result (check_text (U := ascii_only)
            {| text := "You are so stupid and ugly" |})
         (unreachable (Some "sk-test") (LibraryError "ReadTimeout"))
  = Return {| safe := false;
              reasons := ["Detected: Harassment"];
              mode := "heuristic" |}.
Proof.
  apply (upstream_failure_falls_back (U := ascii_only)
           (unreachable (Some "sk-test") (LibraryError "ReadTimeout"))
           {| text := "You are so stupid and ugly" |}
           unavailable eq_refl eq_refl eq_refl).
Defined.

(** C4: in a response of the check endpoint whose mode is "heuristic" or
    "none", safe is true iff reasons is empty. *)
Theorem safe_iff_no_reasons {U : Unicode}
    (w : world) (request : CheckRequest) (r : CheckResponse) :
  result (check_text request) w = Return r ->
  mode r = "heuristic" \/ mode r = "none" ->
  (safe r = true <-> reasons r = []).
Proof.
  unfold result. rewrite check_text_steps. intros Hr Hmode.
  destruct (whitespace_only (text request)).
  { simpl in Hr. injection Hr as <-. simpl. tauto. }
  destruct (Py.truthy_env (environ w "OPENAI_API_KEY")).
  - destruct (check_with_openai_cases (text request) w)
      as [[flagged [categories [r' [_ [E [Hm _]]]]]]|[e E]];
      rewrite E in Hr; simpl in Hr; injection Hr as <-.
    + rewrite Hm in Hmode. destruct Hmode; discriminate.
    + apply heuristic_safe.
  - simpl in Hr. injection Hr as <-. apply heuristic_safe.
Qed.

Lemma safe_iff_no_reasons_witness :
  safe (check_with_heuristic (U := ascii_only) "click this link") = true <->
  reasons (check_with_heuristic (U := ascii_only) "click this link") = [].
Proof.
  apply (safe_iff_no_reasons (U := ascii_only)
           (unreachable None (LibraryError "ConnectError"))
           {| text := "click this link" |}
           (check_with_heuristic (U := ascii_only) "click this link")).
  - reflexivity.
  - left. reflexivity.
Defined.

(** C6: for a text that is not blank, when the environment holds no
    credential (the variable is unset, or set to the empty string), the
    check endpoint only runs the heuristic classifier and answers with mode
    "heuristic", which is neither "openai" nor "none". *)
Theorem no_credential_means_heuristic {U : Unicode}
    (w : world) (request : CheckRequest) :
  whitespace_only (text request) = false ->
  environ w "OPENAI_API_KEY" = None
  \/ environ w "OPENAI_API_KEY" = Some EmptyString ->
  exists r,
    check_text request w =
      ([Call_check_with_heuristic (text request)], Return r)
    /\ r = check_with_heuristic (text request)
    /\ mode r = "heuristic"
    /\ mode r <> "openai"
    /\ mode r <> "none".
Proof.
  intros Hblank Hkey. exists (check_with_heuristic (text request)).
  rewrite check_text_steps, Hblank.
  assert (K : Py.truthy_env (environ w "OPENAI_API_KEY") = false)
    by (destruct Hkey as [-> | ->]; reflexivity).
  rewrite K. repeat split; discriminate.
Qed.

Lemma no_credential_means_heuristic_witness :
  exists r,
    check_text (U := ascii_only) {| text := "Let's grab coffee sometime" |}
      (answering None (moderation (PBool true) (PDict [("hate", PBool true)])))
    = ([Call_check_with_heuristic "Let's grab coffee sometime"], Return r)
    /\ r = check_with_heuristic (U := ascii_only) "Let's grab coffee sometime"
    /\ mode r = "heuristic"
    /\ mode r <> "openai"
    /\ mode r <> "none".
Proof.
  apply (no_credential_means_heuristic (U := ascii_only)
           (answering None
              (moderation (PBool true) (PDict [("hate", PBool true)])))
           {| text := "Let's grab coffee sometime" |}).
  - reflexivity.
  - left. reflexivity.
Defined.

(** C10: for a text that is not blank, what the check endpoint hands to a
    classifier is the text of the request as it came, not trimmed, and
    what it answers is what that classifier returns on it: either the
    heuristic classifier alone is called on the text and its verdict
    returned; or the client is called on the text, sends it as "input" and
    its verdict is returned; or the client, called on the text, fails, and
    the heuristic classifier is called on the text and its verdict
    returned. *)
Theorem classifiers_get_the_text_as_it_came {U : Unicode}
    (w : world) (request : CheckRequest) :
  whitespace_only (text request) = false ->
  let run := check_text request w in
  let sent := moderation_request w (text request) in
  let heuristic := check_with_heuristic (text request) in
  json sent = PDict [("input", PStr (text request))]
  /\ (run = ([Call_check_with_heuristic (text request)], Return heuristic)
      \/ (exists v,
            check_with_openai (text request) w = ([Post sent], Return v)
            /\ run = ([Call_check_with_openai (text request); Post sent],
                      Return v))
      \/ (exists e,
            check_with_openai (text request) w =
              ([Post sent; Stdout "OpenAI API error: " e], Raise unavailable)
            /\ run = ([Call_check_with_openai (text request); Post sent;
                       Stdout "OpenAI API error: " e;
                       Call_check_with_heuristic (text request)],
                      Return heuristic))).
Proof.
  intros Hblank run sent heuristic. split; [reflexivity|].
  subst run sent heuristic. rewrite check_text_steps, Hblank.
  destruct (Py.truthy_env (environ w "OPENAI_API_KEY")); [|now left].
  right.
  destruct (check_with_openai_cases (text request) w)
    as [[flagged [categories [r [_ [E _]]]]]|[e E]]; rewrite E.
  - left. exists r. split; reflexivity.
  - right. exists e. split; reflexivity.
Qed.

Lemma classifiers_get_the_text_as_it_came_witness :
  PyStr.strip ([160; 8195]%N ++ of_string "You idiot " ++ [12288]%N)
    = of_string "You idiot"
  /\ check_text (U := ascii_only)
       {| text := [160; 8195]%N ++ of_string "You idiot " ++ [12288]%N |}
       (unreachable (Some "sk-test") (LibraryError "ConnectError"))
     = ([ Call_check_with_openai
            ([160; 8195]%N ++ of_string "You idiot " ++ [12288]%N);
          Post (moderation_request
                  (unreachable (Some "sk-test") (LibraryError "ConnectError"))
                  ([160; 8195]%N ++ of_string "You idiot " ++ [12288]%N));
          Stdout "OpenAI API error: " (LibraryError "ConnectError");
          Call_check_with_heuristic
            ([160; 8195]%N ++ of_string "You idiot " ++ [12288]%N) ],
        Return (check_with_heuristic (U := ascii_only)
                  ([160; 8195]%N ++ of_string "You idiot " ++ [12288]%N))).
Proof.
  split; [reflexivity|].
  destruct (classifiers_get_the_text_as_it_came (U := ascii_only)
              (unreachable (Some "sk-test") (LibraryError "ConnectError"))
              {| text := [160; 8195]%N ++ of_string "You idiot "
                         ++ [12288]%N |} eq_refl)
    as [_ [H|[[v [H _]]|[e [_ H]]]]].
  - discriminate H.
  - discriminate H.
  - reflexivity.
Defined.

(** ** The health endpoint *)

(** C8: the health endpoint returns status "healthy" and
    heuristic_available true, and openai_available is false exactly when
    the environment holds no credential (unset or empty), true exactly
    when it holds one. *)
Theorem health_check_reports (w : world) :
  exists h,
    health_check w = ([], Return h)
    /\ status h = "healthy"
    /\ heuristic_available h = true
    /\ (openai_available h = false <->
        environ w "OPENAI_API_KEY" = None
        \/ environ w "OPENAI_API_KEY" = Some EmptyString)
    /\ (openai_available h = true <->
        exists key, environ w "OPENAI_API_KEY" = Some key
                    /\ key <> EmptyString).
Proof.
  eexists. split; [reflexivity|]. cbn [status heuristic_available
                                        openai_available].
  split; [reflexivity|]. split; [reflexivity|].
  destruct (environ w "OPENAI_API_KEY") as [[|c key]|]; simpl.
  - split; split; auto; try discriminate.
    intros [key [H Hne]]. injection H as <-. congruence.
  - split; split; try discriminate.
    + intros [H|H]; discriminate.
    + intros _. eexists. split; [reflexivity|discriminate].
    + reflexivity.
  - split; split; auto; try discriminate.
    intros [key [H _]]. discriminate.
Qed.


(** * Further properties *)

(** ** Texts cut at a character that the patterns cannot read *)

Lemma match_here_prev {U : Unicode} ic r : forall p q rest k1 k2,
  Re.word_before p = Re.word_before q ->
  (forall p' q' rest',
      Re.word_before p' = Re.word_before q' -> k1 p' rest' = k2 q' rest') ->
  Re.match_here ic r p rest k1 = Re.match_here ic r q rest k2.
Proof.
  induction r as [c| |r IH|r1 IH1 r2 IH2|r1 IH1 r2 IH2|];
    intros p q rest k1 k2 Hpq Hk; cbn [Re.match_here].
  - destruct rest as [|d rest]; [reflexivity|].
    destruct (Re.char_match ic c d); [|reflexivity]. now apply Hk.
  - unfold Re.at_boundary. rewrite Hpq.
    destruct (xorb _ _); [|reflexivity]. now apply Hk.
  - now apply IH.
  - now rewrite (IH1 p q rest k1 k2), (IH2 p q rest k1 k2).
  - apply IH1; [exact Hpq|]. intros p' q' rest' H. now apply IH2.
  - now apply Hk.
Qed.

Lemma search_from_prev {U : Unicode} ic r rest p q :
  Re.word_before p = Re.word_before q ->
  Re.search_from ic r p rest = Re.search_from ic r q rest.
Proof.
  intros Hpq. destruct rest as [|c rest]; cbn [Re.search_from];
    unfold Re.match_at;
    now rewrite (match_here_prev ic r p q _ _ (fun _ _ => true)).
Qed.

Lemma word_after_app {U : Unicode} (rest tail : str) :
  Re.word_after tail = false ->
  Re.word_after (rest ++ tail) = Re.word_after rest.
Proof. intros H. destruct rest; [exact H|reflexivity]. Qed.

(** What follows a character that the pattern cannot read is out of the
    reach of the pattern. *)
Lemma match_here_tail {U : Unicode} ic r (tail : str) :
  Re.word_after tail = false ->
  literals (fun p => negb match tail with
                           | [] => false
                           | c :: _ => Re.char_match ic p c
                           end) r = true ->
  forall prev rest k1 k2,
    (forall p x, k1 p (x ++ tail) = k2 p x) ->
    Re.match_here ic r prev (rest ++ tail) k1 = Re.match_here ic r prev rest k2.
Proof.
  intros Htail.
  induction r as [c| |r IH|r1 IH1 r2 IH2|r1 IH1 r2 IH2|];
    intros Hlit prev rest k1 k2 Hk; cbn [Re.match_here literals] in *.
  - destruct rest as [|d rest]; cbn [app].
    + destruct tail as [|t tail]; [reflexivity|].
      apply negb_true_iff in Hlit. now rewrite Hlit.
    + destruct (Re.char_match ic c d); [|reflexivity]. apply Hk.
  - unfold Re.at_boundary. rewrite word_after_app by exact Htail.
    destruct (xorb _ _); [|reflexivity]. apply Hk.
  - now apply IH.
  - apply andb_true_iff in Hlit. destruct Hlit as [H1 H2].
    now rewrite (IH1 H1 prev rest k1 k2), (IH2 H2 prev rest k1 k2).
  - apply andb_true_iff in Hlit. destruct Hlit as [H1 H2].
    apply IH1; [exact H1|]. intros p x. now apply IH2.
  - apply Hk.
Qed.

Lemma search_from_cut {U : Unicode} ic r (c : char) (b : str) :
  inert ic r c = true ->
  forall a prev,
    Re.search_from ic r prev (a ++ c :: b) =
    Re.search_from ic r prev a || Re.search_from ic r None b.
Proof.
  unfold inert. intros Hc. apply andb_true_iff in Hc.
  destruct Hc as [Hw Hl]. apply negb_true_iff in Hw.
  assert (Hat : forall prev rest,
    Re.match_at ic r prev (rest ++ c :: b) = Re.match_at ic r prev rest).
  { intros prev rest. unfold Re.match_at.
    apply match_here_tail; auto. }
  induction a as [|d a IH]; intros prev.
  - pose proof (Hat prev []) as H0. cbn [app] in H0.
    cbn [app Re.search_from]. rewrite orb_false_r, H0.
    now rewrite (search_from_prev ic r b (Some c) None)
      by (simpl; now rewrite Hw).
  - change ((d :: a) ++ c :: b) with (d :: (a ++ c :: b)).
    cbn [Re.search_from]. rewrite IH, orb_assoc. f_equal. f_equal.
    apply (Hat prev (d :: a)).
Qed.

Lemma search_cut {U : Unicode} r (a b : str) (c : char) :
  inert true r c = true ->
  Re.search r (a ++ c :: b) Re.IGNORECASE =
  Re.search r a Re.IGNORECASE || Re.search r b Re.IGNORECASE.
Proof. intros. unfold Re.search. now apply search_from_cut. Qed.

Lemma literals_impl (P Q : char -> bool) (r : Re.regex) :
  (forall p, P p = true -> Q p = true) ->
  literals P r = true -> literals Q r = true.
Proof.
  intros H. induction r; simpl; auto;
    intros H'; apply andb_true_iff in H'; destruct H' as [H1 H2];
    apply andb_true_iff; auto.
Qed.

Lemma lowered_word_parts (p : char) :
  lowered_word p = true ->
  PyStr.is_ascii p = true /\ ascii_word p = true /\ is_lowered p = true.
Proof.
  unfold lowered_word. intros H.
  apply andb_true_iff in H. destruct H as [H H3].
  apply andb_true_iff in H. destruct H as [H1 H2]. auto.
Qed.

(** An ASCII character that is no word character is read by no pattern of
    ASCII word characters. *)
Lemma inert_ascii {U : Unicode} (r : Re.regex) (c : char) :
  literals lowered_word r = true ->
  PyStr.is_ascii c = true -> ascii_word c = false ->
  inert true r c = true.
Proof.
  intros Hlit Hc Hnw. unfold inert.
  rewrite is_word_ascii by exact Hc. rewrite Hnw. cbn [negb andb].
  revert Hlit. apply literals_impl. intros p Hp.
  destruct (lowered_word_parts p Hp) as [Hpa [Hpw _]].
  rewrite char_match_ascii by assumption.
  apply negb_true_iff, N.eqb_neq. intros E.
  rewrite <- (ascii_word_lower p), E, ascii_word_lower in Hpw. congruence.
Qed.

Lemma isspace_not_word (c : char) :
  PyStr.isspace c = true -> ascii_word c = false.
Proof.
  intros H. destruct (PyStr.is_ascii c) eqn:A.
  - assert (T : forallb (fun c => implb (PyStr.isspace c)
                                       (negb (ascii_word c))) codes = true)
      by (vm_compute; reflexivity).
    pose proof (ascii_cases _ T c A) as H'. cbv beta in H'.
    rewrite H in H'. now apply negb_true_iff.
  - now apply ascii_word_above.
Qed.

(** ** The table, pattern by pattern *)

Lemma table_patterns_checked :
  forallb (fun p => literals lowered_word p && negb (has_eps p))
          all_patterns = true.
Proof. vm_compute. reflexivity. Qed.

Lemma table_patterns_not_in_empty {U : Unicode} :
  forallb (fun p => negb (Re.search p [] Re.IGNORECASE)) all_patterns = true.
Proof. vm_compute. reflexivity. Qed.

Lemma table_patterns_are_words :
  Forall (fun p => exists ws, p = Re.words ws) all_patterns.
Proof.
  unfold all_patterns, HEURISTIC_PATTERNS. cbn [flat_map snd app].
  repeat constructor; eexists; reflexivity.
Qed.

Lemma in_all_patterns category patterns p :
  In (category, patterns) HEURISTIC_PATTERNS -> In p patterns ->
  In p all_patterns.
Proof.
  intros Hc Hp. apply in_flat_map. exists (category, patterns). auto.
Qed.

Lemma table_pattern {U : Unicode} category patterns p :
  In (category, patterns) HEURISTIC_PATTERNS -> In p patterns ->
  literals lowered_word p = true
  /\ has_eps p = false
  /\ Re.search p [] Re.IGNORECASE = false
  /\ exists ws, p = Re.words ws.
Proof.
  intros Hc Hp. pose proof (in_all_patterns _ _ _ Hc Hp) as Hin.
  pose proof table_patterns_checked as H.
  rewrite forallb_forall in H. specialize (H p Hin).
  apply andb_true_iff in H. destruct H as [H1 H2].
  pose proof table_patterns_not_in_empty as H3.
  rewrite forallb_forall in H3. specialize (H3 p Hin).
  split; [exact H1|]. split; [now apply negb_true_iff|].
  split; [now apply negb_true_iff|].
  pose proof table_patterns_are_words as F.
  rewrite Forall_forall in F. now apply F.
Qed.

Lemma has_eps_alternatives (ws : list str) :
  ws = [] \/ In [] ws -> has_eps (Re.alternatives ws) = true.
Proof.
  induction ws as [|w ws IH]; intros H; [reflexivity|].
  destruct H as [H|H]; [discriminate H|].
  destruct ws as [|w2 ws].
  - destruct H as [->|[]]. reflexivity.
  - change (Re.alternatives (w :: w2 :: ws))
      with (Re.Alt (Re.word w) (Re.alternatives (w2 :: ws))).
    cbn [has_eps]. destruct H as [->|H]; [reflexivity|].
    rewrite IH by (now right). apply orb_true_r.
Qed.

Lemma words_without_eps (ws : list str) :
  has_eps (Re.words ws) = false -> ws <> [] /\ ~ In [] ws.
Proof.
  unfold Re.words. cbn [has_eps orb]. rewrite orb_false_r. intros H.
  split; intros E; rewrite has_eps_alternatives in H; auto; discriminate.
Qed.

Lemma literals_word P (w : str) :
  literals P (Re.word w) = every P w.
Proof.
  induction w as [|c w IH]; [reflexivity|].
  destruct w as [|d w].
  - simpl. now rewrite andb_true_r.
  - change (Re.word (c :: d :: w))
      with (Re.Cat (Re.Lit c) (Re.word (d :: w))).
    cbn [literals every] in *. now rewrite IH.
Qed.

Lemma literals_words P (ws : list str) (w : str) :
  literals P (Re.words ws) = true -> In w ws -> every P w = true.
Proof.
  unfold Re.words. cbn [literals andb]. rewrite andb_true_r.
  induction ws as [|v ws IH]; intros H Hin; [destruct Hin|].
  destruct ws as [|v2 ws].
  - destruct Hin as [<-|[]]. simpl in H. now rewrite <- literals_word.
  - change (Re.alternatives (v :: v2 :: ws))
      with (Re.Alt (Re.word v) (Re.alternatives (v2 :: ws))) in H.
    cbn [literals] in H. apply andb_true_iff in H. destruct H as [H1 H2].
    destruct Hin as [<-|Hin]; [now rewrite <- literals_word|now apply IH].
Qed.

Lemma every_impl (P Q : char -> bool) (s : str) :
  (forall c, P c = true -> Q c = true) ->
  every P s = true -> every Q s = true.
Proof.
  intros H. induction s as [|c s IH]; simpl; [reflexivity|].
  intros H'. apply andb_true_iff in H'. destruct H' as [H1 H2].
  apply andb_true_iff. auto.
Qed.

Lemma lowered_word_ascii (w : str) :
  every lowered_word w = true -> ascii_text w = true.
Proof.
  apply every_impl. intros c Hc. now destruct (lowered_word_parts c Hc).
Qed.

Lemma map_lower_fixed (s : str) :
  every lowered_word s = true -> map PyStr.ascii_lower s = s.
Proof.
  induction s as [|c s IH]; simpl; [reflexivity|]. intros H.
  apply andb_true_iff in H. destruct H as [Hc Hs].
  destruct (lowered_word_parts c Hc) as [_ [_ Hl]].
  now rewrite ascii_lower_fixed, IH.
Qed.

(** In an ASCII text, a category is found iff one of its words occurs. *)
Lemma found_iff_occurs {U : Unicode} text category patterns :
  ascii_text text = true ->
  In (category, patterns) HEURISTIC_PATTERNS ->
  (found (PyStr.lower text) patterns = true <->
   exists ws w,
     In (Re.words ws) patterns /\ In w ws /\ occurs_as_word w text).
Proof.
  intros Ht Hc. unfold found. rewrite existsb_exists. split.
  - intros [p [Hp Hs]].
    destruct (table_pattern _ _ _ Hc Hp) as [Hlit [He [_ [ws ->]]]].
    apply words_without_eps in He. destruct He as [Hne _].
    apply search_words_ascii in Hs; auto.
    + destruct Hs as [w [Hw Ho]]. exists ws, w. auto.
    + intros w Hw. apply lowered_word_ascii.
      now apply (literals_words _ ws).
  - intros [ws [w [Hp [Hw Ho]]]]. exists (Re.words ws). split; [exact Hp|].
    destruct (table_pattern _ _ _ Hc Hp) as [Hlit [He _]].
    apply words_without_eps in He. destruct He as [Hne _].
    apply search_words_ascii; auto.
    + intros v Hv. apply lowered_word_ascii.
      now apply (literals_words _ ws).
    + exists w. auto.
Qed.

Lemma in_heuristic_reasons {U : Unicode} text reason :
  In reason (reasons (check_with_heuristic text)) <->
  exists category patterns,
    In (category, patterns) HEURISTIC_PATTERNS
    /\ found (PyStr.lower text) patterns = true
    /\ reason = detected category.
Proof.
  rewrite heuristic_reasons, in_map_iff. split.
  - intros [[c ps] [<- Hin]]. apply filter_In in Hin.
    destruct Hin as [Hin Hf]. exists c, ps. auto.
  - intros [c [ps [Hin [Hf ->]]]]. exists (c, ps). split; [reflexivity|].
    apply filter_In. auto.
Qed.

Lemma heuristic_unsafe_iff {U : Unicode} text :
  safe (check_with_heuristic text) = false <->
  exists category patterns,
    In (category, patterns) HEURISTIC_PATTERNS
    /\ found (PyStr.lower text) patterns = true.
Proof.
  split.
  - intros H.
    destruct (reasons (check_with_heuristic text)) as [|reason rs] eqn:R.
    + apply heuristic_safe in R. congruence.
    + assert (Hin : In reason (reasons (check_with_heuristic text)))
        by (rewrite R; now left).
      apply in_heuristic_reasons in Hin.
      destruct Hin as [c [ps [Hc [Hf _]]]]. eauto.
  - intros [c [ps [Hc Hf]]].
    destruct (safe (check_with_heuristic text)) eqn:S; [|reflexivity].
    apply heuristic_safe in S.
    assert (Hin : In (detected c) (reasons (check_with_heuristic text)))
      by (apply in_heuristic_reasons; eauto).
    rewrite S in Hin. destruct Hin.
Qed.

Lemma detected_table_injective {U : Unicode} c1 ps1 c2 ps2 :
  In (c1, ps1) HEURISTIC_PATTERNS -> In (c2, ps2) HEURISTIC_PATTERNS ->
  detected c1 = detected c2 -> c1 = c2 /\ ps1 = ps2.
Proof.
  unfold HEURISTIC_PATTERNS. cbn [In]. intros H1 H2.
  repeat (destruct H1 as [H1|H1]; [injection H1 as <- <-|]);
    try contradiction;
    repeat (destruct H2 as [H2|H2]; [injection H2 as <- <-|]);
    try contradiction;
    intros E; try (vm_compute in E; discriminate E); split; reflexivity.
Qed.

(** Two more letters beyond ASCII.  Where the database takes the long s
    (U+017F) for a word character that is its own lower case and that the
    literal "s" matches under [re.IGNORECASE], the long s followed by "ex"
    is reported as inappropriate; where the database lower-cases the
    Kelvin sign (U+212A) to "k", the Kelvin sign followed by "ill" is
    reported as violence. *)
Example long_s_and_kelvin_sign {U : Unicode} :
  (uni_lower [] 383 (of_string "ex") = [383] ->
   uni_word 383 = true ->
   uni_ignorecase (ord "s") 383 = true ->
   In (of_string "Detected: Inappropriate")
      (reasons (check_with_heuristic (383 :: of_string "ex"))))%N
  /\ (uni_lower [] 8490 (of_string "ill") = of_string "k" ->
      reasons (check_with_heuristic (8490 :: of_string "ill")) =
      [of_string "Detected: Violence"])%N.
Proof.
  split.
  - intros Hl Hw Hi.
    assert (L : PyStr.lower (383%N :: of_string "ex")
                = 383%N :: of_string "ex")
      by (cbv -[uni_lower] in Hl |- *; rewrite Hl; reflexivity).
    apply in_heuristic_reasons.
    exists (of_string "inappropriate"),
      [ Re.words ["sex"; "sexual"; "nude"; "naked"; "porn"; "adult"];
        Re.words ["drug"; "alcohol"; "drunk"; "high"; "stoned"];
        Re.words ["scam"; "fraud"; "cheat"; "steal"; "rob"] ].
    split; [right; right; left; reflexivity|].
    split; [|vm_compute; reflexivity].
    rewrite L. unfold found. cbn [existsb]. apply orb_true_iff. left.
    apply search_words; [discriminate|].
    exists (of_string "sex"). split; [left; reflexivity|].
    exists [], (383%N :: of_string "ex"), []. split; [reflexivity|].
    split.
    + constructor.
      * cbv -[uni_ignorecase] in Hi |- *. exact Hi.
      * repeat constructor.
    + cbv -[uni_word] in Hw |- *. rewrite Hw. split; reflexivity.
  - intros Hl.
    assert (L : PyStr.lower (8490%N :: of_string "ill") = of_string "kill")
      by (cbv -[uni_lower] in Hl |- *; rewrite Hl; reflexivity).
    unfold check_with_heuristic. rewrite L. vm_compute. reflexivity.
Qed.

(** X1: for an ASCII text, a category of the table is among the reasons of
    the heuristic classifier iff one of the words of its patterns stands
    in the text between two word boundaries, letter case apart. *)
Theorem category_reported_iff_word_occurs {U : Unicode}
    (text category : str) (patterns : list Re.regex) :
  ascii_text text = true ->
  In (category, patterns) HEURISTIC_PATTERNS ->
  (In (detected category) (reasons (check_with_heuristic text)) <->
   exists ws w,
     In (Re.words ws) patterns /\ In w ws /\ occurs_as_word w text).
Proof.
  intros Ht Hc. rewrite <- (found_iff_occurs text category patterns Ht Hc).
  rewrite in_heuristic_reasons. split.
  - intros [c [ps [Hc' [Hf E]]]].
    destruct (detected_table_injective _ _ _ _ Hc Hc' E) as [-> ->].
    exact Hf.
  - intros Hf. exists category, patterns. auto.
Qed.

Lemma category_reported_iff_word_occurs_witness :
  In (of_string "Detected: Spam")
     (reasons (check_with_heuristic (U := ascii_only) "Click here!")) <->
  exists ws w,
    In (Re.words ws)
       [ Re.words ["buy"; "sell"; "promo"; "discount"; "offer"; "deal"];
         Re.words ["click"; "link"; "website"; "url"];
         Re.words ["follow"; "subscribe"; "like"; "share"] ]
    /\ In w ws /\ occurs_as_word w "Click here!".
Proof.
  apply (category_reported_iff_word_occurs (U := ascii_only)
           "Click here!" "spam").
  - reflexivity.
  - unfold HEURISTIC_PATTERNS. cbn [In]. auto.
Defined.

(** ** A text that is one token *)

Lemma ascii_word_char_left_of (s : str) : forall prev,
  every ascii_word s = true -> s <> [] ->
  ascii_word_char (left_of prev s) = true.
Proof.
  induction s as [|c s IH]; intros prev H Hne; [congruence|].
  simpl in H. apply andb_true_iff in H. destruct H as [Hc Hs].
  destruct s as [|d s]; [exact Hc|].
  cbn [left_of]. apply (IH (Some c)); [exact Hs|discriminate].
Qed.

Lemma ascii_word_char_hd (s : str) :
  every ascii_word s = true -> s <> [] ->
  ascii_word_char (hd_error s) = true.
Proof.
  destruct s as [|c s]; intros H Hne; [congruence|].
  simpl in H. apply andb_true_iff in H. now destruct H.
Qed.

Lemma hd_error_app_left (a b : str) :
  a <> [] -> hd_error (a ++ b) = hd_error a.
Proof. destruct a; [congruence|reflexivity]. Qed.

(** In a text of word characters only, a word occurs only as the whole
    text. *)
Lemma occurs_in_token (w text : str) :
  every ascii_word text = true -> text <> [] -> w <> [] ->
  (occurs_as_word w text <->
   map PyStr.ascii_lower text = map PyStr.ascii_lower w).
Proof.
  intros Hall Hne Hw. split.
  - intros [before [m [after [-> [Hm [B1 B2]]]]]].
    rewrite !every_app in Hall.
    apply andb_true_iff in Hall. destruct Hall as [Hb Hma].
    apply andb_true_iff in Hma. destruct Hma as [Hm' Ha].
    assert (Hmne : m <> []).
    { intros ->. simpl in Hm. symmetry in Hm. apply map_eq_nil in Hm.
      congruence. }
    assert (before = []) as ->.
    { destruct before as [|c before]; [reflexivity|]. exfalso.
      rewrite ascii_word_char_left_of in B1; [|exact Hb|discriminate].
      rewrite hd_error_app_left in B1 by exact Hmne.
      rewrite ascii_word_char_hd in B1;
        [discriminate B1|exact Hm'|exact Hmne]. }
    assert (after = []) as ->.
    { destruct after as [|c after]; [reflexivity|]. exfalso.
      cbn [app] in B2.
      rewrite ascii_word_char_left_of in B2; [|exact Hm'|exact Hmne].
      rewrite ascii_word_char_hd in B2;
        [discriminate B2|exact Ha|discriminate]. }
    cbn [app]. now rewrite app_nil_r.
  - intros E. exists [], text, [].
    rewrite app_nil_r. cbn [app left_of hd_error].
    split; [reflexivity|]. split; [exact E|].
    rewrite ascii_word_char_hd, ascii_word_char_left_of by assumption.
    split; reflexivity.
Qed.

Lemma ascii_word_is_ascii (s : str) :
  every ascii_word s = true -> ascii_text s = true.
Proof.
  apply every_impl. intros c Hc.
  destruct (PyStr.is_ascii c) eqn:A; [reflexivity|].
  rewrite ascii_word_above in Hc by exact A. discriminate Hc.
Qed.

(** X2: a non-empty text made of ASCII letters, digits and underscores
    only is reported unsafe by the heuristic classifier iff, lower-cased,
    it is one of the words of the table. *)
Theorem token_unsafe_iff_listed {U : Unicode} (text : str) :
  text <> [] ->
  every ascii_word text = true ->
  (safe (check_with_heuristic text) = false <->
   exists category patterns ws,
     In (category, patterns) HEURISTIC_PATTERNS
     /\ In (Re.words ws) patterns
     /\ In (PyStr.lower text) ws).
Proof.
  intros Hne Hall. pose proof (ascii_word_is_ascii text Hall) as Ht.
  rewrite heuristic_unsafe_iff, (lower_ascii text Ht). split.
  - intros [c [ps [Hc Hf]]].
    rewrite <- (lower_ascii text Ht) in Hf.
    apply (found_iff_occurs text c ps Ht Hc) in Hf.
    destruct Hf as [ws [w [Hp [Hw Ho]]]].
    destruct (table_pattern _ _ _ Hc Hp) as [Hlow [He _]].
    apply words_without_eps in He. destruct He as [_ Hno].
    assert (Hw' : w <> []) by (intros ->; now apply Hno).
    apply (occurs_in_token w text Hall Hne Hw') in Ho.
    rewrite (map_lower_fixed w) in Ho by (now apply (literals_words _ ws)).
    exists c, ps, ws. rewrite Ho. auto.
  - intros [c [ps [ws [Hc [Hp Hw]]]]]. exists c, ps. split; [exact Hc|].
    rewrite <- (lower_ascii text Ht).
    apply (found_iff_occurs text c ps Ht Hc).
    exists ws, (map PyStr.ascii_lower text).
    split; [exact Hp|]. split; [exact Hw|].
    destruct (table_pattern _ _ _ Hc Hp) as [_ [He _]].
    apply words_without_eps in He. destruct He as [_ Hno].
    apply occurs_in_token; auto.
    + intros E. rewrite E in Hw. now apply Hno.
    + now rewrite map_lower_idem.
Qed.

Lemma token_unsafe_iff_listed_witness :
  safe (check_with_heuristic (U := ascii_only) "KILL") = false
  /\ safe (check_with_heuristic (U := ascii_only) "skill") = true.
Proof.
  split.
  - apply (token_unsafe_iff_listed (U := ascii_only) "KILL");
      [discriminate|reflexivity|].
    exists (of_string "violence"). eexists. exists
      (["kill"; "murder"; "assault"; "attack"; "fight"; "violence"; "harm";
        "hurt"] : list str).
    split; [left; reflexivity|]. split; left; reflexivity.
  - reflexivity.
Defined.

(** ** Verdicts of a text and of its pieces *)

Lemma existsb_orb {A : Type} (f g h : A -> bool) (l : list A) :
  (forall a, In a l -> f a = g a || h a) ->
  existsb f l = existsb g l || existsb h l.
Proof.
  induction l as [|a l IH]; intros H; simpl; [reflexivity|].
  rewrite (H a) by (now left). rewrite IH by (intros b Hb; apply H; now right).
  destruct (g a), (h a), (existsb g l), (existsb h l); reflexivity.
Qed.

Lemma existsb_same {A : Type} (f g : A -> bool) (l : list A) :
  (forall a, In a l -> f a = g a) -> existsb f l = existsb g l.
Proof.
  induction l as [|a l IH]; intros H; simpl; [reflexivity|].
  rewrite (H a) by (now left).
  now rewrite IH by (intros b Hb; apply H; now right).
Qed.

Lemma found_cut {U : Unicode} a b c category patterns :
  ascii_text a = true -> ascii_text b = true ->
  PyStr.is_ascii c = true -> ascii_word c = false ->
  In (category, patterns) HEURISTIC_PATTERNS ->
  found (PyStr.lower (a ++ c :: b)) patterns =
  found (PyStr.lower a) patterns || found (PyStr.lower b) patterns.
Proof.
  intros Ha Hb Hc Hnw Hin. unfold found. apply existsb_orb. intros p Hp.
  destruct (table_pattern _ _ _ Hin Hp) as [Hlit _].
  rewrite !lower_ascii; auto.
  - rewrite map_app. cbn [map]. apply search_cut.
    apply inert_ascii; [exact Hlit| |].
    + now rewrite is_ascii_lower.
    + now rewrite ascii_word_lower.
  - unfold ascii_text in *. rewrite every_app. cbn [every].
    now rewrite Ha, Hb, Hc.
Qed.

(** X3: in an ASCII text, a character that is no letter, digit or
    underscore cuts the text in two for the heuristic classifier: the text
    is safe iff both pieces are, and its reasons are those of the first
    piece and those of the second. *)
Theorem verdict_of_a_cut_text {U : Unicode} (a b : str) (c : char) :
  ascii_text a = true -> ascii_text b = true ->
  PyStr.is_ascii c = true -> ascii_word c = false ->
  safe (check_with_heuristic (a ++ c :: b)) =
    safe (check_with_heuristic a) && safe (check_with_heuristic b)
  /\ forall reason,
       In reason (reasons (check_with_heuristic (a ++ c :: b))) <->
       In reason (reasons (check_with_heuristic a))
       \/ In reason (reasons (check_with_heuristic b)).
Proof.
  intros Ha Hb Hc Hnw.
  pose proof (fun k ps => found_cut a b c k ps Ha Hb Hc Hnw) as Hcut.
  split.
  - destruct (safe (check_with_heuristic (a ++ c :: b))) eqn:S.
    + symmetry. apply andb_true_iff. split.
      * destruct (safe (check_with_heuristic a)) eqn:Sa; [reflexivity|].
        apply heuristic_unsafe_iff in Sa. destruct Sa as [k [ps [Hk Hf]]].
        assert (V : safe (check_with_heuristic (a ++ c :: b)) = false).
        { apply heuristic_unsafe_iff. exists k, ps. split; [exact Hk|].
          rewrite (Hcut k ps Hk), Hf. reflexivity. }
        congruence.
      * destruct (safe (check_with_heuristic b)) eqn:Sb; [reflexivity|].
        apply heuristic_unsafe_iff in Sb. destruct Sb as [k [ps [Hk Hf]]].
        assert (V : safe (check_with_heuristic (a ++ c :: b)) = false).
        { apply heuristic_unsafe_iff. exists k, ps. split; [exact Hk|].
          rewrite (Hcut k ps Hk), Hf. apply orb_true_r. }
        congruence.
    + apply heuristic_unsafe_iff in S. destruct S as [k [ps [Hk Hf]]].
      rewrite (Hcut k ps Hk) in Hf.
      apply orb_true_iff in Hf. symmetry. apply andb_false_iff.
      destruct Hf as [Hf|Hf]; [left|right];
        apply heuristic_unsafe_iff; eauto.
  - intros reason. rewrite !in_heuristic_reasons. split.
    + intros [k [ps [Hk [Hf E]]]].
      rewrite (Hcut k ps Hk) in Hf.
      apply orb_true_iff in Hf. destruct Hf as [Hf|Hf]; [left|right]; eauto.
    + intros [[k [ps [Hk [Hf E]]]]|[k [ps [Hk [Hf E]]]]];
        exists k, ps; rewrite (Hcut k ps Hk), Hf;
        auto using orb_true_r.
Qed.

Lemma verdict_of_a_cut_text_witness :
  safe (check_with_heuristic (U := ascii_only) "I hate spam, click here") =
    safe (check_with_heuristic (U := ascii_only) "I hate spam")
    && safe (check_with_heuristic (U := ascii_only) " click here")
  /\ forall reason,
       In reason (reasons (check_with_heuristic (U := ascii_only)
                             "I hate spam, click here"))
       <-> In reason (reasons (check_with_heuristic (U := ascii_only)
                                 "I hate spam"))
           \/ In reason (reasons (check_with_heuristic (U := ascii_only)
                                    " click here")).
Proof.
  apply (verdict_of_a_cut_text (U := ascii_only)
           "I hate spam" " click here" (ord ","));
    reflexivity.
Defined.

(** ** Whitespace around the text *)

Lemma map_lower_lstrip (s : str) :
  map PyStr.ascii_lower (PyStr.lstrip s) =
  PyStr.lstrip (map PyStr.ascii_lower s).
Proof.
  induction s as [|c s IH]; simpl; [reflexivity|].
  rewrite isspace_lower. now destruct (PyStr.isspace c).
Qed.

Lemma map_lower_rstrip (s : str) :
  map PyStr.ascii_lower (PyStr.rstrip s) =
  PyStr.rstrip (map PyStr.ascii_lower s).
Proof.
  induction s as [|c s IH]; simpl; [reflexivity|].
  rewrite <- IH, isspace_lower.
  destruct (PyStr.rstrip s); simpl; [|reflexivity].
  now destruct (PyStr.isspace c).
Qed.

Lemma map_lower_strip (s : str) :
  map PyStr.ascii_lower (PyStr.strip s) =
  PyStr.strip (map PyStr.ascii_lower s).
Proof. unfold PyStr.strip. now rewrite map_lower_rstrip, map_lower_lstrip. Qed.

(** What [rstrip] takes off is whitespace. *)
Lemma rstrip_tail (s : str) :
  exists tail, s = PyStr.rstrip s ++ tail /\ whitespace_only tail = true.
Proof.
  induction s as [|c s [tail [Hs Ht]]]; [exists []; auto|].
  simpl. destruct (PyStr.rstrip s) as [|d r] eqn:R.
  - simpl in Hs. subst tail.
    destruct (PyStr.isspace c) eqn:C.
    + exists (c :: s). simpl. now rewrite C.
    + exists s. auto.
  - exists tail. simpl. now rewrite Hs at 1.
Qed.

Lemma every_lstrip P (s : str) :
  every P s = true -> every P (PyStr.lstrip s) = true.
Proof.
  induction s as [|c s IH]; simpl; [reflexivity|]. intros H.
  destruct (PyStr.isspace c); [|exact H].
  apply andb_true_iff in H. destruct H as [_ H]. now apply IH.
Qed.

Lemma every_rstrip P (s : str) :
  every P s = true -> every P (PyStr.rstrip s) = true.
Proof.
  intros H. destruct (rstrip_tail s) as [tail [Hs _]].
  rewrite Hs, every_app in H. apply andb_true_iff in H. now destruct H.
Qed.

Lemma every_strip P (s : str) :
  every P s = true -> every P (PyStr.strip s) = true.
Proof. intros H. unfold PyStr.strip. now apply every_rstrip, every_lstrip. Qed.

Lemma whitespace_only_lower (s : str) :
  whitespace_only (map PyStr.ascii_lower s) = whitespace_only s.
Proof.
  induction s as [|c s IH]; simpl; [reflexivity|].
  now rewrite isspace_lower, IH.
Qed.

Lemma whitespace_only_plain (s : str) :
  whitespace_only s = true -> every plain s = true.
Proof.
  induction s as [|c s IH]; simpl; [reflexivity|]. intros H.
  apply andb_true_iff in H. destruct H as [Hc Hs].
  unfold plain at 1. rewrite Hc, orb_true_r. now apply IH.
Qed.

(** The database of the examples meets what is asked of whitespace. *)
Lemma ascii_only_inert : whitespace_is_inert (U := ascii_only).
Proof.
  intros c _ Hc. split; [reflexivity|]. split; [reflexivity|].
  intros p Hp. cbn [uni_ignorecase ascii_only]. apply N.eqb_neq.
  unfold PyStr.is_ascii in *. apply N.ltb_lt in Hp. apply N.ltb_ge in Hc.
  lia.
Qed.

Section Whitespace.

Context {U : Unicode}.
Hypothesis inert_whitespace : whitespace_is_inert.

Lemma lower_at_plain (before : str) (c : char) (after : str) :
  plain c = true -> PyStr.lower_at before c after = [PyStr.ascii_lower c].
Proof.
  unfold plain, PyStr.lower_at. intros H.
  destruct (PyStr.is_ascii c) eqn:A; [reflexivity|].
  simpl in H. destruct (inert_whitespace c H A) as [Hl _].
  now rewrite Hl, ascii_lower_above.
Qed.

Lemma lower_from_plain (s : str) : forall before,
  every plain s = true ->
  PyStr.lower_from before s = map PyStr.ascii_lower s.
Proof.
  induction s as [|c s IH]; intros before H; simpl; [reflexivity|].
  simpl in H. apply andb_true_iff in H. destruct H as [Hc Hs].
  now rewrite lower_at_plain, IH.
Qed.

(** On a text of ASCII characters and whitespace [lower] is the
    lower-casing of the ASCII letters. *)
Lemma lower_plain (s : str) :
  every plain s = true -> PyStr.lower s = map PyStr.ascii_lower s.
Proof. apply lower_from_plain. Qed.

(** No pattern of ASCII word characters reads a whitespace. *)
Lemma inert_space (r : Re.regex) (c : char) :
  literals lowered_word r = true ->
  PyStr.isspace c = true -> inert true r c = true.
Proof.
  intros Hlit Hs. destruct (PyStr.is_ascii c) eqn:A.
  - apply inert_ascii; auto using isspace_not_word.
  - destruct (inert_whitespace c Hs A) as [_ [Hw Hm]].
    unfold inert, Re.is_word. rewrite A, Hw. cbn [negb andb].
    revert Hlit. apply literals_impl. intros p Hp.
    destruct (lowered_word_parts p Hp) as [Hpa _].
    unfold Re.char_match. rewrite A, andb_false_r.
    now rewrite Hm.
Qed.

Variable r : Re.regex.
Hypothesis word_literals : literals lowered_word r = true.
Hypothesis not_in_empty : Re.search r [] Re.IGNORECASE = false.

Lemma search_whitespace (s : str) :
  whitespace_only s = true -> Re.search r s Re.IGNORECASE = false.
Proof.
  induction s as [|c s IH]; intros H; [exact not_in_empty|].
  simpl in H. apply andb_true_iff in H. destruct H as [Hc Hs].
  change (c :: s) with ([] ++ c :: s).
  rewrite search_cut by auto using inert_space.
  now rewrite not_in_empty, IH.
Qed.

Lemma search_lstrip (s : str) :
  Re.search r (PyStr.lstrip s) Re.IGNORECASE = Re.search r s Re.IGNORECASE.
Proof.
  induction s as [|c s IH]; [reflexivity|]. simpl.
  destruct (PyStr.isspace c) eqn:C; [|reflexivity].
  change (c :: s) with ([] ++ c :: s).
  rewrite search_cut by auto using inert_space.
  now rewrite not_in_empty, IH.
Qed.

Lemma search_rstrip (s : str) :
  Re.search r (PyStr.rstrip s) Re.IGNORECASE = Re.search r s Re.IGNORECASE.
Proof.
  destruct (rstrip_tail s) as [tail [Hs Ht]].
  destruct tail as [|c tail].
  - rewrite app_nil_r in Hs. now rewrite <- Hs.
  - simpl in Ht. apply andb_true_iff in Ht. destruct Ht as [Hc Ht].
    rewrite Hs at 2. rewrite search_cut by auto using inert_space.
    rewrite (search_whitespace tail Ht). now rewrite orb_false_r.
Qed.

Lemma search_strip (s : str) :
  Re.search r (PyStr.strip s) Re.IGNORECASE = Re.search r s Re.IGNORECASE.
Proof. unfold PyStr.strip. now rewrite search_rstrip, search_lstrip. Qed.

End Whitespace.

(** X4: where the database gives whitespace no other case, takes it for no
    word character and lets no ASCII literal match it, the heuristic
    classifier gives the trimmed text the verdict it gives the text, for
    every text of ASCII characters and whitespace of any kind: whitespace
    at either end changes nothing. *)
Theorem heuristic_ignores_whitespace_around {U : Unicode} (text : str) :
  whitespace_is_inert ->
  every plain text = true ->
  check_with_heuristic (PyStr.strip text) = check_with_heuristic text.
Proof.
  intros HU Hplain. unfold check_with_heuristic.
  assert (E : for_category HEURISTIC_PATTERNS
                (PyStr.lower (PyStr.strip text)) [] =
              for_category HEURISTIC_PATTERNS (PyStr.lower text) []).
  { rewrite !for_category_filter. cbn [app]. f_equal.
    apply filter_ext_in. intros [c ps] Hc. cbn [snd]. unfold found.
    apply existsb_same. intros p Hp.
    destruct (table_pattern _ _ _ Hc Hp) as [Hlit [_ [Hempty _]]].
    rewrite !(lower_plain HU) by auto using every_strip.
    rewrite map_lower_strip. now apply search_strip. }
  cbv zeta. now rewrite E.
Qed.

Lemma heuristic_ignores_whitespace_around_witness :
  PyStr.strip ([160; 32]%N ++ of_string "you IDIOT" ++ [9; 8195]%N)
    = of_string "you IDIOT"
  /\ check_with_heuristic (U := ascii_only) "you IDIOT"
     = check_with_heuristic (U := ascii_only)
         ([160; 32]%N ++ of_string "you IDIOT" ++ [9; 8195]%N).
Proof.
  split; [reflexivity|].
  apply (heuristic_ignores_whitespace_around (U := ascii_only)
           ([160; 32]%N ++ of_string "you IDIOT" ++ [9; 8195]%N)
           ascii_only_inert).
  reflexivity.
Defined.

(** ** Blank texts and the heuristic classifier *)

(** X13: where the database gives whitespace no other case, takes it for
    no word character and lets no ASCII literal match it, the heuristic
    classifier finds nothing on a text that is empty or whitespace only,
    of whatever kind: the early answer of the check endpoint differs from
    the heuristic verdict by its mode alone. *)
Theorem blank_text_is_safe_for_the_heuristic {U : Unicode} (text : str) :
  whitespace_is_inert ->
  whitespace_only text = true ->
  check_with_heuristic text =
  {| safe := true; reasons := []; mode := "heuristic" |}.
Proof.
  intros HU Hblank.
  assert (R : reasons (check_with_heuristic text) = []).
  { rewrite heuristic_reasons.
    replace (filter _ HEURISTIC_PATTERNS)
      with (@nil (str * list Re.regex)); [reflexivity|].
    symmetry. apply filter_nil_iff. intros [c ps] Hc. cbn [snd].
    unfold found. destruct (existsb _ ps) eqn:E; [|reflexivity].
    apply existsb_exists in E. destruct E as [p [Hp Hs]].
    destruct (table_pattern _ _ _ Hc Hp) as [Hlit [_ [Hempty _]]].
    rewrite (lower_plain HU) in Hs by (now apply whitespace_only_plain).
    rewrite (search_whitespace HU p Hlit Hempty) in Hs; [discriminate Hs|].
    now rewrite whitespace_only_lower. }
  pose proof (proj2 (heuristic_safe text) R) as S.
  destruct (check_with_heuristic text) as [sf rs md] eqn:E.
  cbn [safe reasons] in *. subst sf rs. f_equal.
  change md with (mode {| safe := true; reasons := []; mode := md |}).
  now rewrite <- E.
Qed.

Lemma blank_text_is_safe_for_the_heuristic_witness :
  check_with_heuristic (U := ascii_only) [32; 160; 9; 8195; 12288]%N =
  {| safe := true; reasons := []; mode := "heuristic" |}.
Proof.
  apply (blank_text_is_safe_for_the_heuristic (U := ascii_only)
           [32; 160; 9; 8195; 12288]%N ascii_only_inert).
  reflexivity.
Defined.

(** ** Letter case, twice over *)

Lemma match_here_case {U : Unicode} r :
  literals lowered_word r = true ->
  forall prev rest k1 k2,
    every (fun c => PyStr.is_ascii c && is_lowered c) rest = true ->
    (forall p x,
        every (fun c => PyStr.is_ascii c && is_lowered c) x = true ->
        k1 p x = k2 p x) ->
    Re.match_here true r prev rest k1 = Re.match_here false r prev rest k2.
Proof.
  induction r as [c| |r IH|r1 IH1 r2 IH2|r1 IH1 r2 IH2|];
    intros Hlit prev rest k1 k2 Hrest Hk; cbn [Re.match_here literals] in *.
  - destruct rest as [|d rest]; [reflexivity|].
    simpl in Hrest. apply andb_true_iff in Hrest. destruct Hrest as [Hd Hx].
    apply andb_true_iff in Hd. destruct Hd as [Hda Hdl].
    destruct (lowered_word_parts c Hlit) as [Hca [_ Hcl]].
    rewrite char_match_ascii by assumption.
    rewrite (ascii_lower_fixed c Hcl), (ascii_lower_fixed d Hdl).
    unfold Re.char_match.
    destruct (N.eqb c d); [|reflexivity]. now apply Hk.
  - destruct (Re.at_boundary prev rest); [|reflexivity]. now apply Hk.
  - now apply IH.
  - apply andb_true_iff in Hlit. destruct Hlit as [H1 H2].
    now rewrite (IH1 H1 prev rest k1 k2), (IH2 H2 prev rest k1 k2).
  - apply andb_true_iff in Hlit. destruct Hlit as [H1 H2].
    apply IH1; [exact H1|exact Hrest|]. intros p x Hx. now apply IH2.
  - now apply Hk.
Qed.

Lemma search_from_case {U : Unicode} r :
  literals lowered_word r = true ->
  forall rest prev,
    every (fun c => PyStr.is_ascii c && is_lowered c) rest = true ->
    Re.search_from true r prev rest = Re.search_from false r prev rest.
Proof.
  intros Hlit. induction rest as [|c rest IH]; intros prev Hrest;
    cbn [Re.search_from]; unfold Re.match_at.
  - now rewrite (match_here_case r Hlit prev []
                   (fun _ _ => true) (fun _ _ => true)).
  - rewrite (match_here_case r Hlit prev (c :: rest)
               (fun _ _ => true) (fun _ _ => true)) by auto.
    simpl in Hrest. apply andb_true_iff in Hrest. destruct Hrest as [_ Hx].
    now rewrite IH.
Qed.

Lemma lowered_text (s : str) :
  ascii_text s = true ->
  every (fun c => PyStr.is_ascii c && is_lowered c)
        (map PyStr.ascii_lower s) = true.
Proof.
  unfold ascii_text. induction s as [|c s IH]; simpl; [reflexivity|].
  intros H. apply andb_true_iff in H. destruct H as [Hc Hs].
  now rewrite is_ascii_lower, Hc, is_lowered_lower, IH.
Qed.

(** X5: for an ASCII text and every pattern of the table, searching the
    lower-cased text with [re.IGNORECASE] gives what the search without
    the flag gives on the lower-cased text, and what the search with the
    flag gives on the text as it came: on ASCII, lower-casing and the flag
    each do the work of both. *)
Theorem lower_and_ignorecase_do_the_same {U : Unicode}
    (text category : str) (patterns : list Re.regex) (pattern : Re.regex) :
  ascii_text text = true ->
  In (category, patterns) HEURISTIC_PATTERNS ->
  In pattern patterns ->
  Re.search pattern (PyStr.lower text) Re.IGNORECASE =
    Re.search pattern (PyStr.lower text) false
  /\ Re.search pattern (PyStr.lower text) Re.IGNORECASE =
       Re.search pattern text Re.IGNORECASE.
Proof.
  intros Ht Hc Hp.
  destruct (table_pattern _ _ _ Hc Hp) as [Hlow [He [_ [ws ->]]]].
  apply words_without_eps in He. destruct He as [Hne _].
  assert (Hws : forall w, In w ws -> ascii_text w = true).
  { intros w Hw. apply lowered_word_ascii.
    now apply (literals_words _ ws). }
  split.
  - unfold Re.search, Re.IGNORECASE. rewrite lower_ascii by exact Ht.
    apply search_from_case; [exact Hlow|now apply lowered_text].
  - apply eq_true_iff_eq.
    rewrite (search_words_ascii ws text Hne Ht Hws).
    rewrite (search_words ws text Re.IGNORECASE Hne). unfold Re.IGNORECASE.
    split; intros [w [Hw Ho]]; exists w; (split; [exact Hw|]);
      apply (matches_iff_occurs w text Ht (Hws w Hw)); exact Ho.
Qed.

Lemma lower_and_ignorecase_do_the_same_witness :
  Re.search (U := ascii_only) (Re.words ["hate"; "despise"; "loathe"])
            (PyStr.lower (U := ascii_only) "I HATE Mondays") Re.IGNORECASE
  = Re.search (U := ascii_only) (Re.words ["hate"; "despise"; "loathe"])
              (PyStr.lower (U := ascii_only) "I HATE Mondays") false
  /\ Re.search (U := ascii_only) (Re.words ["hate"; "despise"; "loathe"])
               (PyStr.lower (U := ascii_only) "I HATE Mondays")
               Re.IGNORECASE
     = Re.search (U := ascii_only) (Re.words ["hate"; "despise"; "loathe"])
                 "I HATE Mondays" Re.IGNORECASE.
Proof.
  apply (lower_and_ignorecase_do_the_same (U := ascii_only)
           "I HATE Mondays" "harassment"
           [ Re.words ["stupid"; "idiot"; "moron"; "dumb"; "ugly"; "fat";
                       "gross"];
             Re.words ["hate"; "despise"; "loathe"];
             Re.words ["harass"; "bully"; "intimidate"] ]).
  - reflexivity.
  - right. left. reflexivity.
  - right. left. reflexivity.
Defined.

(** ** Reason strings *)

Lemma ascii_upper_lower (c : char) :
  PyStr.ascii_upper (PyStr.ascii_lower c) = PyStr.ascii_upper c.
Proof.
  apply N.eqb_eq. revert c. apply char_cases; [vm_compute; reflexivity|].
  intros c H. rewrite !(ascii_lower_above c H). apply N.eqb_refl.
Qed.

Lemma ascii_isalpha_lower (c : char) :
  PyStr.ascii_isalpha (PyStr.ascii_lower c) = PyStr.ascii_isalpha c.
Proof.
  apply eqb_prop. revert c. apply char_cases; [vm_compute; reflexivity|].
  intros c H. rewrite !(ascii_lower_above c H). apply eqb_reflx.
Qed.

Lemma title_from_lower {U : Unicode} (s : str) : forall cased b1 b2,
  ascii_text s = true ->
  PyStr.title_from cased b1 (map PyStr.ascii_lower s) =
  PyStr.title_from cased b2 s.
Proof.
  unfold ascii_text.
  induction s as [|c s IH]; intros cased b1 b2 H; simpl; [reflexivity|].
  apply andb_true_iff in H. destruct H as [Hc Hs].
  unfold PyStr.lower_at, PyStr.cased.
  rewrite is_ascii_lower, Hc, ascii_lower_idem, ascii_upper_lower,
    ascii_isalpha_lower.
  f_equal. now apply IH.
Qed.

Lemma ascii_text_replace (old new : char) (s : str) :
  PyStr.is_ascii new = true -> ascii_text s = true ->
  ascii_text (PyStr.replace old new s) = true.
Proof.
  unfold ascii_text. intros Hn.
  induction s as [|c s IH]; simpl; [reflexivity|]. intros H.
  apply andb_true_iff in H. destruct H as [Hc Hs].
  rewrite IH by exact Hs. now destruct (N.eqb c old); rewrite ?Hn, ?Hc.
Qed.

(** X15: the reason string of an ASCII category name keeps neither the
    letter case of the name nor the difference between an underscore and a
    space: two ASCII names that agree once underscores are replaced and
    letters lower-cased give the same reason. *)
Theorem reason_forgets_case_and_underscores {U : Unicode}
    (category1 category2 : str) :
  ascii_text category1 = true -> ascii_text category2 = true ->
  PyStr.lower (PyStr.replace (ord "_") (ord " ") category1) =
  PyStr.lower (PyStr.replace (ord "_") (ord " ") category2) ->
  detected category1 = detected category2.
Proof.
  intros H1 H2 E. unfold detected, PyStr.title. f_equal.
  pose proof (ascii_text_replace (ord "_") (ord " ") category1 eq_refl H1)
    as A1.
  pose proof (ascii_text_replace (ord "_") (ord " ") category2 eq_refl H2)
    as A2.
  rewrite !lower_ascii in E by assumption.
  rewrite <- (title_from_lower _ false [] [] A1).
  rewrite <- (title_from_lower _ false [] [] A2).
  now rewrite E.
Qed.

Lemma reason_forgets_case_and_underscores_witness :
  detected (U := ascii_only) "SELF_HARM"
  = detected (U := ascii_only) "self harm".
Proof.
  apply (reason_forgets_case_and_underscores (U := ascii_only)
           "SELF_HARM" "self harm"); reflexivity.
Defined.

(** ** The moderation client, further *)

(** X6: the client returns a verdict iff the answer has a success status
    and decodes to an object whose "results" has a first element that holds
    "flagged" and "categories", the categories being an object whenever
    flagged is truthy; when flagged is falsy the categories are not read,
    though the key has to be there. *)
Theorem client_returns_iff {U : Unicode} (w : world) (text : str) :
  (exists r, result (check_with_openai text) w = Return r) <->
  exists flagged categories,
    upstream_says w text flagged categories
    /\ (Py.truthy flagged = true -> exists items, categories = PDict items).
Proof.
  split.
  - intros [r Hr]. unfold result in Hr.
    destruct (check_with_openai_cases text w)
      as [[flagged [categories [r' [Hsays [_ [_ [_ [_ Hitems]]]]]]]]|[e E]].
    + exists flagged, categories. split; [exact Hsays|].
      intros F. destruct (Hitems F) as [items [-> _]]. eauto.
    + rewrite E in Hr. discriminate Hr.
  - intros [flagged [categories [Hsays Hitems]]]. unfold result.
    destruct (Py.truthy flagged) eqn:F.
    + destruct (Hitems eq_refl) as [items ->].
      rewrite (openai_flagged w text flagged items Hsays F).
      eexists. reflexivity.
    + rewrite (openai_unflagged w text flagged categories Hsays F).
      eexists. reflexivity.
Qed.

(** X7: when the client fails, whatever it met, it has sent its one
    request, printed what it met, and raises
    HTTPException(500, "OpenAI moderation service unavailable"): what it
    met does not leave the client. *)
Theorem client_failure_is_masked {U : Unicode}
    (w : world) (text : str) (e : exn) :
  result (check_with_openai text) w = Raise e ->
  e = HTTPException 500 "OpenAI moderation service unavailable"
  /\ exists met,
       trace (check_with_openai text) w =
       [Post (moderation_request w text); Stdout "OpenAI API error: " met].
Proof.
  unfold result, trace.
  destruct (check_with_openai_cases text w)
    as [[flagged [categories [r [_ [-> _]]]]]|[met ->]]; simpl; intros H.
  - discriminate H.
  - injection H as <-. split; [reflexivity|]. exists met. reflexivity.
Qed.

Lemma client_failure_is_masked_witness :
  unavailable = HTTPException 500 "OpenAI moderation service unavailable"
  /\ exists met,
       trace (check_with_openai (U := ascii_only) "hello")
             (answering (Some "sk-test") (PDict [("error", PStr "quota")]))
       = [Post (moderation_request
                  (answering (Some "sk-test")
                     (PDict [("error", PStr "quota")])) "hello");
          Stdout "OpenAI API error: " met].
Proof.
  apply (client_failure_is_masked (U := ascii_only)
           (answering (Some "sk-test") (PDict [("error", PStr "quota")]))
           "hello" unavailable).
  reflexivity.
Defined.

(** ** The check endpoint, further *)

(** X8: the check endpoint always answers, and the mode of the answer says
    which way it went: "none" iff the text is blank; "openai" iff the text
    is not blank, a credential is set and the client returned; "heuristic"
    iff the text is not blank and no credential is set or the client
    raised. *)
Theorem mode_of_the_answer {U : Unicode} (w : world) (request : CheckRequest) :
  exists r,
    result (check_text request) w = Return r
    /\ (mode r = "none" <-> whitespace_only (text request) = true)
    /\ (mode r = "openai" <->
        whitespace_only (text request) = false
        /\ Py.truthy_env (environ w "OPENAI_API_KEY") = true
        /\ exists v, result (check_with_openai (text request)) w = Return v)
    /\ (mode r = "heuristic" <->
        whitespace_only (text request) = false
        /\ (Py.truthy_env (environ w "OPENAI_API_KEY") = false
            \/ exists e,
                 result (check_with_openai (text request)) w = Raise e)).
Proof.
  unfold result. rewrite check_text_steps.
  destruct (whitespace_only (text request)).
  { eexists. split; [reflexivity|]. cbn [mode].
    repeat split; try discriminate; intros [H _]; discriminate H. }
  destruct (Py.truthy_env (environ w "OPENAI_API_KEY")).
  - destruct (check_with_openai_cases (text request) w)
      as [[flagged [categories [r [_ [E [Hm _]]]]]]|[e E]]; rewrite E.
    + exists r. split; [reflexivity|]. rewrite Hm. cbn [snd].
      repeat split; try discriminate; eauto.
      intros [_ [H|[e H]]]; discriminate H.
    + eexists. split; [reflexivity|]. cbn [mode snd].
      repeat split; try discriminate; eauto.
      * intros [_ [_ [v H]]]. discriminate H.
      * right. exists unavailable. reflexivity.
  - eexists. split; [reflexivity|]. cbn [mode].
    repeat split; try discriminate; auto.
    intros [_ [H _]]. discriminate H.
Qed.

(** X9: one check sends at most one request upstream, and sends one iff
    the text is not blank and a credential is set; the request goes to the
    moderation endpoint with the credential as bearer token, the text as
    it came under "input", and a timeout of 10 seconds. *)
Theorem at_most_one_request {U : Unicode} (w : world) (request : CheckRequest) :
  let sent := posts (trace (check_text request) w) in
  (sent = [] \/ sent = [moderation_request w (text request)])
  /\ (sent <> [] <->
      whitespace_only (text request) = false
      /\ Py.truthy_env (environ w "OPENAI_API_KEY") = true)
  /\ (forall sent1, In sent1 sent ->
      exists key,
        environ w "OPENAI_API_KEY" = Some key
        /\ key <> EmptyString
        /\ url sent1 = "https://api.openai.com/v1/moderations"
        /\ headers sent1 = [ ("Authorization", ("Bearer " ++ key)%string);
                             ("Content-Type", "application/json") ]
        /\ json sent1 = PDict [("input", PStr (text request))]
        /\ timeout sent1 = 10%float).
Proof.
  cbv zeta. unfold trace. rewrite check_text_steps.
  destruct (whitespace_only (text request)).
  { cbn [fst posts]. split; [now left|]. split.
    - split; [congruence|]. intros [H _]. discriminate H.
    - intros sent1 []. }
  destruct (Py.truthy_env (environ w "OPENAI_API_KEY")) eqn:K.
  - assert (Hsent : posts (fst
        match check_with_openai (text request) w with
        | (t, Return r) =>
            (Call_check_with_openai (text request) :: t, Return r)
        | (t, Raise _) =>
            (Call_check_with_openai (text request)
               :: t ++ [Call_check_with_heuristic (text request)],
             Return (check_with_heuristic (text request)))
        end) = [moderation_request w (text request)]).
    { destruct (check_with_openai_cases (text request) w)
        as [[flagged [categories [r [_ [E _]]]]]|[e E]]; rewrite E;
        reflexivity. }
    rewrite Hsent. split; [now right|]. split.
    + split; [auto|discriminate].
    + intros sent1 [<-|[]].
      destruct (environ w "OPENAI_API_KEY") as [[|c key]|] eqn:Env;
        try discriminate K.
      exists (String c key). unfold moderation_request. rewrite Env.
      repeat split. discriminate.
  - cbn [fst posts]. split; [now left|]. split.
    + split; [congruence|]. intros [_ H]. discriminate H.
    + intros sent1 [].
Qed.

(** X10: when the client returns, the check endpoint returns the client's
    verdict as it is and does not run the heuristic classifier. *)
Theorem upstream_verdict_is_returned_as_is {U : Unicode}
    (w : world) (request : CheckRequest) (v : CheckResponse) :
  whitespace_only (text request) = false ->
  Py.truthy_env (environ w "OPENAI_API_KEY") = true ->
  result (check_with_openai (text request)) w = Return v ->
  check_text request w =
    ([ Call_check_with_openai (text request);
       Post (moderation_request w (text request)) ],
     Return v)
  /\ heuristic_calls (trace (check_text request) w) = [].
Proof.
  intros Hblank Hkey Hv. unfold result, trace in *.
  rewrite check_text_steps, Hblank, Hkey.
  destruct (check_with_openai_cases (text request) w)
    as [[flagged [categories [r [_ [E _]]]]]|[e E]]; rewrite E in *;
    simpl in Hv; [|discriminate Hv].
  injection Hv as ->. split; reflexivity.
Qed.

Lemma upstream_verdict_is_returned_as_is_witness :
  result (check_text (U := ascii_only)
            {| text := "You are so stupid and ugly" |})
         (answering (Some "sk-test")
            (moderation (PBool false) (booleans [("harassment", false)])))
  = Return {| safe := true; reasons := []; mode := "openai" |}
  /\ safe (check_with_heuristic (U := ascii_only)
             "You are so stupid and ugly") = false.
Proof.
  split; [|reflexivity].
  destruct (upstream_verdict_is_returned_as_is (U := ascii_only)
              (answering (Some "sk-test")
                 (moderation (PBool false)
                    (booleans [("harassment", false)])))
              {| text := "You are so stupid and ugly" |}
              {| safe := true; reasons := []; mode := "openai" |}
              eq_refl eq_refl eq_refl) as [Hrun _].
  unfold result. now rewrite Hrun.
Defined.

Lemma existsb_filter {A : Type} (f : A -> bool) (l : list A) :
  existsb f l = true <-> filter f l <> [].
Proof.
  induction l as [|a l IH]; simpl.
  - split; [discriminate|congruence].
  - destruct (f a); simpl; [split; [discriminate|reflexivity]|exact IH].
Qed.

(** X11: when the upstream answer is well formed and its flagged is true
    exactly when one of its categories is, the answer of the check
    endpoint has safe = true iff it has no reasons, in whatever mode. *)
Theorem consistent_answer_keeps_the_invariant {U : Unicode}
    (w : world) (request : CheckRequest)
    (flagged : bool) (categories : list (str * bool))
    (r : CheckResponse) :
  upstream_says w (text request) (PBool flagged) (booleans categories) ->
  flagged = existsb snd categories ->
  result (check_text request) w = Return r ->
  (safe r = true <-> reasons r = []).
Proof.
  intros Hsays Hflag. unfold result. rewrite check_text_steps.
  destruct (whitespace_only (text request)).
  { intros H. injection H as <-. simpl. tauto. }
  destruct (Py.truthy_env (environ w "OPENAI_API_KEY"));
    [|intros H; injection H as <-; apply heuristic_safe].
  destruct flagged.
  - rewrite (openai_flagged w (text request) (PBool true) _ Hsays eq_refl).
    intros H. injection H as <-. cbn [safe reasons].
    rewrite for_item_booleans. cbn [app].
    symmetry in Hflag. apply existsb_filter in Hflag.
    destruct (filter snd categories); [congruence|].
    split; discriminate.
  - rewrite (openai_unflagged w (text request) (PBool false) _ Hsays eq_refl).
    intros H. injection H as <-. simpl. tauto.
Qed.

Lemma consistent_answer_keeps_the_invariant_witness :
  safe {| safe := false; reasons := ["Detected: Violence"];
          mode := "openai" |} = true
  <-> reasons {| safe := false; reasons := ["Detected: Violence"];
                 mode := "openai" |} = [].
Proof.
  apply (consistent_answer_keeps_the_invariant (U := ascii_only)
           (answering (Some "sk-test")
              (moderation (PBool true)
                 (booleans [("hate", false); ("violence", true)])))
           {| text := "I will hurt you" |}
           true [("hate", false); ("violence", true)]).
  - apply answering_says.
  - reflexivity.
  - reflexivity.
Defined.

(** ** The two probes *)

(** X12: the health probe and the check endpoint read the same variable:
    in a world where the health probe reports openai_available = false, no
    answer of the check endpoint has mode "openai". *)
Theorem openai_mode_needs_openai_available {U : Unicode}
    (w : world) (request : CheckRequest)
    (r : CheckResponse) (h : HealthResponse) :
  result (check_text request) w = Return r ->
  result health_check w = Return h ->
  openai_available h = false ->
  mode r <> "openai".
Proof.
  unfold result. rewrite check_text_steps. intros Hr Hh Hoff.
  injection Hh as <-. cbn [openai_available] in Hoff. rewrite Hoff in Hr.
  destruct (whitespace_only (text request));
    injection Hr as <-; discriminate.
Qed.

Lemma openai_mode_needs_openai_available_witness :
  mode (check_with_heuristic (U := ascii_only) "hello there") <> "openai".
Proof.
  apply (openai_mode_needs_openai_available (U := ascii_only)
           (answering (Some EmptyString)
              (moderation (PBool true) (booleans [("hate", true)])))
           {| text := "hello there" |}
           (check_with_heuristic (U := ascii_only) "hello there")
           {| status := "healthy"; openai_available := false;
              heuristic_available := true |});
    reflexivity.
Defined.


(** ** The request of the client *)

(** X14: the client does not look at the credential: it sends its one
    request whether or not OPENAI_API_KEY is set, and with the variable
    unset the Authorization header reads "Bearer None". *)
Theorem client_sends_without_credential {U : Unicode} (w : world) (text : str) :
  posts (trace (check_with_openai text) w) = [moderation_request w text]
  /\ (environ w "OPENAI_API_KEY" = None ->
      headers (moderation_request w text) =
      [ ("Authorization", "Bearer None");
        ("Content-Type", "application/json") ]).
Proof.
  split.
  - unfold trace.
    destruct (check_with_openai_cases text w)
      as [[flagged [categories [r [_ [E _]]]]]|[e E]]; rewrite E;
      reflexivity.
  - intros Env. unfold moderation_request. now rewrite Env.
Qed.

